(** * daily-api: feed predicate composer and personalized feed cache

    A shallow embedding of [src/common/feedGenerator.ts] (the predicate
    composer and the feed builders) together with a model of the
    personalized feed cache manager exercised by
    [__tests__/personalizedFeed.ts].

    SQL fragments are kept as a small syntax tree whose [render] gives the
    text the TypeScript template strings produce, and whose evaluation
    over a table-level database gives the meaning of the fragment. *)

From Stdlib Require Import String Ascii List ZArith Bool Lia DecimalString.
From stdpp Require Import base option list strings gmap.

Local Open Scope string_scope.
Local Open Scope list_scope.

(** ** Strings *)

Module Str.

(** The double quote, used by the quoted identifiers of the SQL text. *)
Definition dq : string := String "034"%char EmptyString.

(** [Array.prototype.join]. *)
Fixpoint join (sep : string) (l : list string) : string :=
  match l with
  | [] => EmptyString
  | [x] => x
  | x :: rest => x +:+ sep +:+ join sep rest
  end.

(** Decimal rendering of a number in a template string. *)
Definition ofNat (n : nat) : string := NilZero.string_of_uint (Nat.to_uint n).

(** JavaScript truthiness of a string. *)
Definition truthy (s : string) : bool := negb (String.eqb s EmptyString).

(** [x?.length] used as a condition, for an optional array. *)
Definition nonEmpty {A} (l : option (list A)) : bool :=
  match l with
  | Some (_ :: _) => true
  | _ => false
  end.

(** The array behind an optional field whose length was found truthy. *)
Definition arr {A} (l : option (list A)) : list A := default [] l.

End Str.

(** ** Three-valued logic of SQL conditions *)

Module Tri.

Definition and3 (a b : option bool) : option bool :=
  match a, b with
  | Some false, _ | _, Some false => Some false
  | Some true, Some true => Some true
  | _, _ => None
  end.

Definition or3 (a b : option bool) : option bool :=
  match a, b with
  | Some true, _ | _, Some true => Some true
  | Some false, Some false => Some false
  | _, _ => None
  end.

Definition not3 (a : option bool) : option bool := negb <$> a.

(** A row passes a WHERE or ON clause only when the condition is TRUE. *)
Definition holds (a : option bool) : bool :=
  match a with
  | Some true => true
  | _ => false
  end.

End Tri.

(** ** Tables *)

(** Modelled from the spec: the entities imported from [../entity],
    which is not among the sources (external entities of section 3).
    Their columns are those the fragments of [feedGenerator.ts] name;
    a table is written by the name of its entity. *)
Inductive Entity :=
| Post | PostKeyword | FeedTag | FeedSource | Source | HiddenPost | View.

Definition entityName (e : Entity) : string :=
  match e with
  | Post => "Post" | PostKeyword => "PostKeyword" | FeedTag => "FeedTag"
  | FeedSource => "FeedSource" | Source => "Source"
  | HiddenPost => "HiddenPost" | View => "View"
  end.

Record PostRow := { p_id : string; p_sourceId : string; p_deleted : bool; p_banned : bool }.
Record PostKeywordRow := { pk_postId : string; pk_keyword : string }.
Record FeedTagRow := { ft_feedId : string; ft_tag : string; ft_blocked : bool }.
Record FeedSourceRow := { fs_feedId : string; fs_sourceId : string }.
Record SourceRow := { s_id : string; s_active : bool }.
Record HiddenPostRow := { h_postId : string; h_userId : string }.
Record ViewRow := { v_userId : string; v_postId : string }.

Record Database := {
  posts : list PostRow;
  postKeywords : list PostKeywordRow;
  feedTags : list FeedTagRow;
  feedSources : list FeedSourceRow;
  sources : list SourceRow;
  hiddenPosts : list HiddenPostRow;
  views : list ViewRow;
}.

Inductive Value := VNull | VStr (s : string) | VBool (b : bool).

(** A row as the query sees it: column name to value. *)
Definition Row := list (string * Value).

Definition postRow (p : PostRow) : Row :=
  [("id", VStr (p_id p)); ("sourceId", VStr (p_sourceId p));
   ("deleted", VBool (p_deleted p)); ("banned", VBool (p_banned p))].
Definition postKeywordRow (r : PostKeywordRow) : Row :=
  [("postId", VStr (pk_postId r)); ("keyword", VStr (pk_keyword r))].
Definition feedTagRow (r : FeedTagRow) : Row :=
  [("feedId", VStr (ft_feedId r)); ("tag", VStr (ft_tag r)); ("blocked", VBool (ft_blocked r))].
Definition feedSourceRow (r : FeedSourceRow) : Row :=
  [("feedId", VStr (fs_feedId r)); ("sourceId", VStr (fs_sourceId r))].
Definition sourceRow (r : SourceRow) : Row :=
  [("id", VStr (s_id r)); ("active", VBool (s_active r))].
Definition hiddenPostRow (r : HiddenPostRow) : Row :=
  [("postId", VStr (h_postId r)); ("userId", VStr (h_userId r))].
Definition viewRow (r : ViewRow) : Row :=
  [("userId", VStr (v_userId r)); ("postId", VStr (v_postId r))].

Definition table (db : Database) (e : Entity) : list Row :=
  match e with
  | Post => postRow <$> posts db
  | PostKeyword => postKeywordRow <$> postKeywords db
  | FeedTag => feedTagRow <$> feedTags db
  | FeedSource => feedSourceRow <$> feedSources db
  | Source => sourceRow <$> sources db
  | HiddenPost => hiddenPostRow <$> hiddenPosts db
  | View => viewRow <$> views db
  end.

(** The all-NULL row a LEFT JOIN supplies when nothing matches. *)
Definition nullRow : Row := [].

Fixpoint field (col : string) (r : Row) : Value :=
  match r with
  | [] => VNull
  | (k, v) :: r' => if String.eqb k col then v else field col r'
  end.

(** Aliases in scope, innermost first. *)
Definition Env := list (string * Row).

Fixpoint binding (alias : string) (env : Env) : option Row :=
  match env with
  | [] => None
  | (a, r) :: env' => if String.eqb a alias then Some r else binding alias env'
  end.

(** ** SQL fragments *)

(** How the source text quotes a column reference:
    [a.c], [a."c"], ["a".c] or ["a"."c"]. *)
Inductive Quoting := Bare | QuotedColumn | QuotedAlias | QuotedBoth.

Record ColRef := { cAlias : string; cName : string; cQuote : Quoting }.

Definition col (a c : string) : ColRef := {| cAlias := a; cName := c; cQuote := Bare |}.
Definition colQ (a c : string) : ColRef := {| cAlias := a; cName := c; cQuote := QuotedColumn |}.
Definition colA (a c : string) : ColRef := {| cAlias := a; cName := c; cQuote := QuotedAlias |}.
Definition colQQ (a c : string) : ColRef := {| cAlias := a; cName := c; cQuote := QuotedBoth |}.

Inductive Selection := SelOne | SelAll | SelCol (c : ColRef).

Inductive Cond :=
| CInParam (c : ColRef) (p : string)       (* c IN (:...p) *)
| CNotInParam (c : ColRef) (p : string)    (* c NOT IN (:...p) *)
| CEqParam (c : ColRef) (p : string)       (* c = :p *)
| CEqCol (c1 c2 : ColRef)                  (* c1 = c2 *)
| CEqBool (c : ColRef) (b : bool) (upper : bool)  (* c = true, c = FALSE *)
| CIsNull (c : ColRef)                     (* c IS NULL *)
| CInText (c : ColRef) (text : string)     (* c IN (text), text interpolated *)
| CInQuery (c : ColRef) (q : Query)        (* c IN (subquery) *)
| CNotInQuery (c : ColRef) (q : Query)     (* c NOT IN(subquery) *)
| CExists (q : Query)                      (* EXISTS(subquery) *)
| CNot (c : Cond)                          (* NOT c *)
| COr (a b : Cond)                         (* (a OR b) *)
| CAnd (a b : Cond)                        (* a AND b *)
with Query :=
| Select (sel : Selection) (e : Entity) (alias : string) (cond : option Cond).

Definition renderCol (c : ColRef) : string :=
  match cQuote c with
  | Bare => cAlias c +:+ "." +:+ cName c
  | QuotedColumn => cAlias c +:+ "." +:+ Str.dq +:+ cName c +:+ Str.dq
  | QuotedAlias => Str.dq +:+ cAlias c +:+ Str.dq +:+ "." +:+ cName c
  | QuotedBoth => Str.dq +:+ cAlias c +:+ Str.dq +:+ "." +:+ Str.dq +:+ cName c +:+ Str.dq
  end.

Definition renderSel (s : Selection) : string :=
  match s with
  | SelOne => "1"
  | SelAll => "*"
  | SelCol c => renderCol c
  end.

Definition renderBool (b upper : bool) : string :=
  match b, upper with
  | true, false => "true" | false, false => "false"
  | true, true => "TRUE" | false, true => "FALSE"
  end.

Fixpoint render (c : Cond) : string :=
  match c with
  | CInParam c p => renderCol c +:+ " IN (:..." +:+ p +:+ ")"
  | CNotInParam c p => renderCol c +:+ " NOT IN (:..." +:+ p +:+ ")"
  | CEqParam c p => renderCol c +:+ " = :" +:+ p
  | CEqCol c1 c2 => renderCol c1 +:+ " = " +:+ renderCol c2
  | CEqBool c b upper => renderCol c +:+ " = " +:+ renderBool b upper
  | CIsNull c => renderCol c +:+ " IS NULL"
  | CInText c text => renderCol c +:+ " IN (" +:+ text +:+ ")"
  | CInQuery c q => renderCol c +:+ " IN " +:+ renderQuery q
  | CNotInQuery c q => renderCol c +:+ " NOT IN" +:+ renderQuery q
  | CExists q => "EXISTS" +:+ renderQuery q
  | CNot c => "NOT " +:+ render c
  | COr a b => "(" +:+ render a +:+ " OR " +:+ render b +:+ ")"
  | CAnd a b => render a +:+ " AND " +:+ render b
  end
with renderQuery (q : Query) : string :=
  match q with
  | Select sel e alias cond =>
      "(SELECT " +:+ renderSel sel +:+ " FROM " +:+ entityName e +:+ " " +:+ alias +:+
      match cond with
      | Some c => " WHERE " +:+ render c
      | None => EmptyString
      end +:+ ")"
  end.

(** ** Meaning of a fragment *)

(** Values bound to the named parameters of a query
    ([:name] and the spread form [:...name]). *)
Inductive Param := PUndefined | PStr (s : string) | PList (l : list string).

Definition eq3 (a b : Value) : option bool :=
  match a, b with
  | VNull, _ | _, VNull => None
  | VStr x, VStr y => Some (String.eqb x y)
  | VBool x, VBool y => Some (Bool.eqb x y)
  | _, _ => Some false
  end.

(** [x IN (v1, ..., vn)]: the disjunction of the comparisons. *)
Definition in3 (x : Value) (l : list Value) : option bool :=
  foldr (fun v acc => Tri.or3 (eq3 x v) acc) (Some false) l.

Definition colValue (env : Env) (c : ColRef) : Value :=
  match binding (cAlias c) env with
  | Some r => field (cName c) r
  | None => VNull
  end.

(** Reading an interpolated list of single-quoted literals,
    ['a','b','c']; any other text is not a literal list. *)
Inductive LitState := ExpectOpen | Inside (cur : string) | ExpectSep.

Fixpoint parseLits (st : LitState) (s : string) (acc : list string) : option (list string) :=
  match s with
  | EmptyString =>
      match st with
      | ExpectSep => Some (rev acc)
      | _ => None
      end
  | String ch rest =>
      match st with
      | ExpectOpen =>
          if Ascii.eqb ch "'" then parseLits (Inside EmptyString) rest acc else None
      | Inside cur =>
          if Ascii.eqb ch "'" then parseLits ExpectSep rest (cur :: acc)
          else parseLits (Inside (cur +:+ String ch EmptyString)) rest acc
      | ExpectSep =>
          if Ascii.eqb ch "," then parseLits ExpectOpen rest acc else None
      end
  end.

Definition literals (text : string) : option (list string) :=
  parseLits ExpectOpen text [].

Definition project (env : Env) (sel : Selection) : Value :=
  match sel with
  | SelOne | SelAll => VStr "1"
  | SelCol c => colValue env c
  end.

Fixpoint evalCond (db : Database) (ps : gmap string Param) (env : Env) (c : Cond)
  : option bool :=
  match c with
  | CInParam c p =>
      match ps !! p with
      | Some (PList l) => in3 (colValue env c) (VStr <$> l)
      | _ => None
      end
  | CNotInParam c p =>
      match ps !! p with
      | Some (PList l) => Tri.not3 (in3 (colValue env c) (VStr <$> l))
      | _ => None
      end
  | CEqParam c p =>
      match ps !! p with
      | Some (PStr s) => eq3 (colValue env c) (VStr s)
      | _ => None
      end
  | CEqCol c1 c2 => eq3 (colValue env c1) (colValue env c2)
  | CEqBool c b _ => eq3 (colValue env c) (VBool b)
  | CIsNull c => Some (match colValue env c with VNull => true | _ => false end)
  | CInText c text =>
      match literals text with
      | Some l => in3 (colValue env c) (VStr <$> l)
      | None => None
      end
  | CInQuery c q => in3 (colValue env c) (evalQuery db ps env q)
  | CNotInQuery c q => Tri.not3 (in3 (colValue env c) (evalQuery db ps env q))
  | CExists q => Some (match evalQuery db ps env q with [] => false | _ => true end)
  | CNot c => Tri.not3 (evalCond db ps env c)
  | COr a b => Tri.or3 (evalCond db ps env a) (evalCond db ps env b)
  | CAnd a b => Tri.and3 (evalCond db ps env a) (evalCond db ps env b)
  end
with evalQuery (db : Database) (ps : gmap string Param) (env : Env) (q : Query)
  : list Value :=
  match q with
  | Select sel e alias cond =>
      (fun r => project ((alias, r) :: env) sel) <$>
      List.filter
        (fun r =>
           match cond with
           | Some c => Tri.holds (evalCond db ps ((alias, r) :: env) c)
           | None => true
           end)
        (table db e)
  end.

(** ** Fragments the database refuses

    [evalCond] gives every fragment a value. The database raises on
    some of them before it reads a row: a spread parameter bound to an
    empty array expands to [IN ()], a column has to belong to the table
    its alias stands for, a parameter has to be bound to a value of its
    kind, and an interpolated list has to be a list of quoted literals.
    [evalCond] is the meaning of the fragments that pass [accepted]. *)

(** The columns of the tables, as the row conversions above have them. *)
Definition columns (e : Entity) : list string :=
  match e with
  | Post => ["id"; "sourceId"; "deleted"; "banned"]
  | PostKeyword => ["postId"; "keyword"]
  | FeedTag => ["feedId"; "tag"; "blocked"]
  | FeedSource => ["feedId"; "sourceId"]
  | Source => ["id"; "active"]
  | HiddenPost => ["postId"; "userId"]
  | View => ["userId"; "postId"]
  end.

(** The tables the aliases in scope stand for, innermost first. *)
Definition Scope := list (string * Entity).

Fixpoint tableOf (alias : string) (sc : Scope) : option Entity :=
  match sc with
  | [] => None
  | (a, e) :: sc' => if String.eqb a alias then Some e else tableOf alias sc'
  end.

(** The alias is in scope and its table has the column. *)
Definition knownCol (sc : Scope) (c : ColRef) : bool :=
  match tableOf (cAlias c) sc with
  | Some e => existsb (String.eqb (cName c)) (columns e)
  | None => false
  end.

(** [:...p] needs an array with at least one element. *)
Definition spreadBound (ps : gmap string Param) (p : string) : bool :=
  match ps !! p with
  | Some (PList (_ :: _)) => true
  | _ => false
  end.

(** [:p] needs a binding; an undefined value is sent as NULL. *)
Definition scalarBound (ps : gmap string Param) (p : string) : bool :=
  match ps !! p with
  | Some (PStr _) | Some PUndefined => true
  | _ => false
  end.

Fixpoint accepted (ps : gmap string Param) (sc : Scope) (c : Cond) : bool :=
  match c with
  | CInParam c p | CNotInParam c p => knownCol sc c && spreadBound ps p
  | CEqParam c p => knownCol sc c && scalarBound ps p
  | CEqCol c1 c2 => knownCol sc c1 && knownCol sc c2
  | CEqBool c _ _ | CIsNull c => knownCol sc c
  | CInText c text =>
      knownCol sc c && match literals text with Some _ => true | None => false end
  | CInQuery c q | CNotInQuery c q =>
      knownCol sc c && acceptedQuery ps sc q
      && match q with Select SelAll _ _ _ => false | _ => true end
  | CExists q => acceptedQuery ps sc q
  | CNot c => accepted ps sc c
  | COr a b | CAnd a b => accepted ps sc a && accepted ps sc b
  end
with acceptedQuery (ps : gmap string Param) (sc : Scope) (q : Query) : bool :=
  match q with
  | Select sel e alias cond =>
      match sel with
      | SelCol c => knownCol ((alias, e) :: sc) c
      | _ => true
      end
      && match cond with
         | Some c => accepted ps ((alias, e) :: sc) c
         | None => true
         end
  end.

(** ** The query builder

    The part of TypeORM's [SelectQueryBuilder] the composer drives.  A
    builder is a value; every call returns the builder it leaves behind.
    Parameters set on a sub-query builder are also set on the builder it
    came from, which [adopt] carries out where the sub-query is used. *)

Inductive JoinKind := LeftJoin | InnerJoin.

Record Join := { jKind : JoinKind; jEntity : Entity; jAlias : string; jOn : Cond }.

Record SelectQueryBuilder := {
  selection : Selection;
  target : option (Entity * string);
  joins : list Join;
  wheres : list Cond;
  parameters : gmap string Param;
  orderBys : option string;
}.

Notation "x |> f" := (f x) (at level 68, left associativity, only parsing).

Module QB.

Definition createQueryBuilder (e : Entity) (alias : string) : SelectQueryBuilder :=
  {| selection := SelAll; target := Some (e, alias); joins := []; wheres := [];
     parameters := ∅; orderBys := None |}.

Definition subQuery (parent : SelectQueryBuilder) : SelectQueryBuilder :=
  {| selection := SelAll; target := None; joins := []; wheres := [];
     parameters := ∅; orderBys := None |}.

Definition select (sel : Selection) (b : SelectQueryBuilder) : SelectQueryBuilder :=
  {| selection := sel; target := target b; joins := joins b; wheres := wheres b;
     parameters := parameters b; orderBys := orderBys b |}.

Definition from (e : Entity) (alias : string) (b : SelectQueryBuilder) : SelectQueryBuilder :=
  {| selection := selection b; target := Some (e, alias); joins := joins b;
     wheres := wheres b; parameters := parameters b; orderBys := orderBys b |}.

(** [setParameters]: the new bindings win over the old ones. *)
Definition setParameters (ps : gmap string Param) (b : SelectQueryBuilder) : SelectQueryBuilder :=
  {| selection := selection b; target := target b; joins := joins b; wheres := wheres b;
     parameters := ps ∪ parameters b; orderBys := orderBys b |}.

Definition where_ (c : Cond) (ps : gmap string Param) (b : SelectQueryBuilder) : SelectQueryBuilder :=
  {| selection := selection b; target := target b; joins := joins b; wheres := [c];
     parameters := ps ∪ parameters b; orderBys := orderBys b |}.

Definition andWhere (c : Cond) (ps : gmap string Param) (b : SelectQueryBuilder) : SelectQueryBuilder :=
  {| selection := selection b; target := target b; joins := joins b;
     wheres := wheres b ++ [c];
     parameters := ps ∪ parameters b; orderBys := orderBys b |}.

(** [andWhere(fn)]: the callback receives the builder itself, returns the
    fragment and leaves its parameters on the builder. *)
Definition andWhereFn (fn : SelectQueryBuilder -> Cond * SelectQueryBuilder)
    (b : SelectQueryBuilder) : SelectQueryBuilder :=
  let '(c, b') := fn b in andWhere c ∅ b'.

Definition leftJoin (e : Entity) (alias : string) (on : Cond) (ps : gmap string Param)
    (b : SelectQueryBuilder) : SelectQueryBuilder :=
  {| selection := selection b; target := target b;
     joins := joins b ++ [{| jKind := LeftJoin; jEntity := e; jAlias := alias; jOn := on |}];
     wheres := wheres b; parameters := ps ∪ parameters b; orderBys := orderBys b |}.

Definition orderBy (sort : string) (b : SelectQueryBuilder) : SelectQueryBuilder :=
  {| selection := selection b; target := target b; joins := joins b; wheres := wheres b;
     parameters := parameters b; orderBys := Some sort |}.

(** The conjunction [c1 AND c2 AND ...] of a WHERE clause. *)
Definition conj (cs : list Cond) : option Cond :=
  match cs with
  | [] => None
  | c :: rest => Some (foldl CAnd c rest)
  end.

(** [getQuery] of a sub-query builder: the parenthesised SELECT. *)
Definition getQuery (b : SelectQueryBuilder) : Query :=
  let '(e, alias) := default (Post, EmptyString) (target b) in
  Select (selection b) e alias (conj (wheres b)).

(** The parent builder after a sub-query builder has set its parameters. *)
Definition adopt (sub parent : SelectQueryBuilder) : SelectQueryBuilder :=
  setParameters (parameters sub) parent.

End QB.

(** ** Running a feed query *)

Definition joinRows (db : Database) (ps : gmap string Param) (j : Join) (env : Env)
  : list Env :=
  let matches :=
    List.filter (fun r => Tri.holds (evalCond db ps ((jAlias j, r) :: env) (jOn j)))
                (table db (jEntity j)) in
  match matches, jKind j with
  | [], LeftJoin => [(jAlias j, nullRow) :: env]
  | _, _ => (fun r => (jAlias j, r) :: env) <$> matches
  end.

Definition joined (db : Database) (ps : gmap string Param) (js : list Join) (env : Env)
  : list Env :=
  foldl (fun envs j => envs ≫= joinRows db ps j) [env] js.

Definition passes (db : Database) (ps : gmap string Param) (cs : list Cond) (env : Env)
  : bool :=
  forallb (fun c => Tri.holds (evalCond db ps env c)) cs.

(** The posts a builder over [Post] returns, one per joined row that
    passes the WHERE clause (ordering and paging left out). *)
Definition execute (db : Database) (b : SelectQueryBuilder) : list PostRow :=
  match target b with
  | Some (Post, alias) =>
      p ← posts db;
      env ← joined db (parameters b) (joins b) [(alias, postRow p)];
      if passes db (parameters b) (wheres b) env then [p] else []
  | _ => []
  end.

(** ** src/common/feedGenerator.ts *)

Record Context := { userId : option string; premium : bool }.

(** [{ userId: ctx.userId }] as a parameter value. *)
Definition userParam (ctx : Context) : Param :=
  match userId ctx with
  | Some u => PStr u
  | None => PUndefined
  end.

(** [ctx.userId] used as a condition. *)
Definition loggedIn (ctx : Context) : bool :=
  match userId ctx with
  | Some u => Str.truthy u
  | None => false
  end.

Definition whereTags (tags : list string) (builder : SelectQueryBuilder)
    (alias : string) (variableAlias : string) : Cond * SelectQueryBuilder :=
  let query :=
    QB.subQuery builder
    |> QB.select SelOne
    |> QB.from PostKeyword "pk"
    |> QB.where_ (CInParam (col "pk" "keyword") variableAlias)
                 {[ variableAlias := PList tags ]}
    |> QB.andWhere (CEqCol (col "pk" "postId") (col alias "id")) ∅ in
  (CExists (QB.getQuery query), QB.adopt query builder).

Definition whereNotTags (tags : list string) (builder : SelectQueryBuilder)
    (alias : string) : Cond * SelectQueryBuilder :=
  let '(q, b) := whereTags tags builder alias "blockedTags" in
  (CNot q, b).

Record AnonymousFeedFilters := {
  includeSources : option (list string);
  excludeSources : option (list string);
  includeTags : option (list string);
  blockedTags : option (list string);
}.

Definition feedToFilters (con : Database) (feedId : string) : AnonymousFeedFilters :=
  let tags := List.filter (fun r => String.eqb (ft_feedId r) feedId) (feedTags con) in
  let excludeSources :=
    fs_sourceId <$> List.filter (fun r => String.eqb (fs_feedId r) feedId) (feedSources con) in
  let tagFilters :=
    foldl (fun (acc : list string * list string) value =>
             if ft_blocked value
             then (acc.1, acc.2 ++ [ft_tag value])
             else (acc.1 ++ [ft_tag value], acc.2))
          ([], []) tags in
  {| includeSources := None;
     excludeSources := Some excludeSources;
     includeTags := Some tagFilters.1;
     blockedTags := Some tagFilters.2 |}.

Definition whereTagsInFeed (feedId : string) (builder : SelectQueryBuilder)
    (alias : string) : Cond * SelectQueryBuilder :=
  let feedTagB :=
    QB.subQuery builder
    |> QB.select (SelCol (col "feed" "tag"))
    |> QB.from FeedTag "feed"
    |> QB.where_ (CEqParam (col "feed" "feedId") "feedId") {[ "feedId" := PStr feedId ]} in
  let feedTag := QB.getQuery feedTagB in
  let builder := QB.adopt feedTagB builder in
  let query :=
    QB.subQuery builder
    |> QB.select SelOne
    |> QB.from PostKeyword "pk"
    |> QB.where_ (CInQuery (col "pk" "keyword") feedTag) ∅
    |> QB.andWhere (CEqCol (col "pk" "postId") (col alias "id")) ∅ in
  (COr (CNot (CExists feedTag)) (CExists (QB.getQuery query)), QB.adopt query builder).

Definition applyFeedWhere (ctx : Context) (builder : SelectQueryBuilder) (alias : string)
    (removeHiddenPosts removeBannedPosts : bool) : SelectQueryBuilder :=
  let selectSource :=
    QB.subQuery builder
    |> QB.from Source "source"
    |> QB.where_ (CEqBool (col "source" "active") true false) ∅
    |> QB.andWhere (CEqCol (col "source" "id") (colQQ alias "sourceId")) ∅
    |> QB.andWhere (CEqBool (col alias "deleted") false false) ∅ in
  let newBuilder :=
    builder |> QB.andWhere (CExists (QB.getQuery selectSource))
                           {[ "userId" := userParam ctx ]} in
  let newBuilder :=
    if loggedIn ctx && removeHiddenPosts then
      newBuilder
      |> QB.leftJoin HiddenPost "hidden"
           (CAnd (CEqCol (col "hidden" "postId") (colA alias "id"))
                 (CEqParam (col "hidden" "userId") "userId"))
           {[ "userId" := userParam ctx ]}
      |> QB.andWhere (CIsNull (col "hidden" "postId")) ∅
    else newBuilder in
  let newBuilder :=
    if removeBannedPosts then
      newBuilder |> QB.andWhere (CEqBool (colA alias "banned") false true) ∅
    else newBuilder in
  newBuilder.

Definition anonymousFeedBuilder (ctx : Context) (filters : option AnonymousFeedFilters)
    (builder : SelectQueryBuilder) (alias : string) : SelectQueryBuilder :=
  let newBuilder := builder in
  let newBuilder :=
    if Str.nonEmpty (filters ≫= includeSources) then
      newBuilder |> QB.andWhere (CInParam (colQ alias "sourceId") "sources")
                      {[ "sources" := PList (Str.arr (filters ≫= includeSources)) ]}
    else if Str.nonEmpty (filters ≫= excludeSources) then
      newBuilder |> QB.andWhere (CNotInParam (colQ alias "sourceId") "sources")
                      {[ "sources" := PList (Str.arr (filters ≫= excludeSources)) ]}
    else newBuilder in
  let newBuilder :=
    if Str.nonEmpty (filters ≫= includeTags) then
      newBuilder |> QB.andWhereFn (fun builder =>
                      whereTags (Str.arr (filters ≫= includeTags)) builder alias "tags")
    else newBuilder in
  let newBuilder :=
    if Str.nonEmpty (filters ≫= blockedTags) then
      newBuilder |> QB.andWhereFn (fun builder =>
                      whereNotTags (Str.arr (filters ≫= blockedTags)) builder alias)
    else newBuilder in
  newBuilder.

Definition sourceFeedBuilder (ctx : Context) (sourceId : string)
    (builder : SelectQueryBuilder) (alias : string) : SelectQueryBuilder :=
  builder |> QB.andWhere (CEqParam (col alias "sourceId") "sourceId")
                         {[ "sourceId" := PStr sourceId ]}.

Definition tagFeedBuilder (ctx : Context) (tag : string)
    (builder : SelectQueryBuilder) (alias : string) : SelectQueryBuilder :=
  builder |> QB.andWhereFn (fun subBuilder => whereTags [tag] subBuilder alias "tags").

(** The text interpolated for the ids: each id between single quotes,
    comma separated, or the sentinel when there is none. *)
Definition idsStr (ids : list string) : string :=
  match ids with
  | [] => "'nosuchid'"
  | _ => Str.join "," ((fun id => "'" +:+ id +:+ "'") <$> ids)
  end.

Definition fixedIdsFeedBuilder (ctx : Context) (ids : list string)
    (builder : SelectQueryBuilder) (alias : string) : SelectQueryBuilder :=
  builder
  |> QB.andWhere (CInText (col alias "id") (idsStr ids)) ∅
  |> QB.orderBy ("array_position(array[" +:+ idsStr ids +:+ "], " +:+ alias +:+ ".id)").

(** *** The other builders of feedGenerator.ts *)

(** A possibly undefined string given as the value of a parameter. *)
Definition optParam (v : option string) : Param :=
  match v with
  | Some u => PStr u
  | None => PUndefined
  end.

Definition whereKeyword (keyword : string) (builder : SelectQueryBuilder)
    (alias : string) : Cond * SelectQueryBuilder :=
  let query :=
    QB.subQuery builder
    |> QB.select SelOne
    |> QB.from PostKeyword "pk"
    |> QB.where_ (CEqParam (col "pk" "keyword") "keyword") {[ "keyword" := PStr keyword ]}
    |> QB.andWhere (CEqCol (colQ "pk" "postId") (col alias "id")) ∅ in
  (CExists (QB.getQuery query), QB.adopt query builder).

Definition whereSourcesInFeed (feedId : string) (builder : SelectQueryBuilder)
    (alias : string) : Cond * SelectQueryBuilder :=
  let query :=
    QB.subQuery builder
    |> QB.select (SelCol (col "feed" "sourceId"))
    |> QB.from FeedSource "feed"
    |> QB.where_ (CEqParam (col "feed" "feedId") "feedId") {[ "feedId" := PStr feedId ]} in
  (CNotInQuery (col alias "sourceId") (QB.getQuery query), QB.adopt query builder).

(** [selectRead] works on the builder it is given, which [whereUnread]
    makes a sub-query builder; it returns the fragment and that builder
    as the calls leave it. *)
Definition selectRead (userId : option string) (builder : SelectQueryBuilder)
    (alias : string) : Cond * SelectQueryBuilder :=
  let query :=
    builder
    |> QB.select SelOne
    |> QB.from View "view"
    |> QB.where_ (CEqParam (col "view" "userId") "userId") {[ "userId" := optParam userId ]}
    |> QB.andWhere (CEqCol (col "view" "postId") (col alias "id")) ∅ in
  (CExists (QB.getQuery query), query).

Definition whereUnread (userId : option string) (builder : SelectQueryBuilder)
    (alias : string) : Cond * SelectQueryBuilder :=
  let '(q, sub) := selectRead userId (QB.subQuery builder) alias in
  (CNot q, QB.adopt sub builder).

Inductive Ranking := POPULARITY | TIME.

Definition configuredFeedBuilder (ctx : Context) (feedId : string) (unreadOnly : bool)
    (builder : SelectQueryBuilder) (alias : string)
    (filters : option AnonymousFeedFilters) : SelectQueryBuilder :=
  let newBuilder := anonymousFeedBuilder ctx filters builder alias in
  let newBuilder :=
    if unreadOnly then
      newBuilder |> QB.andWhereFn (fun subBuilder => whereUnread (userId ctx) subBuilder alias)
    else newBuilder in
  newBuilder.

(** ** src/personalizedFeed.ts

    The module under test in [__tests__/personalizedFeed.ts]
    ([generatePersonalizedFeed], [getPersonalizedFeedKey]) and the Redis
    helpers of [src/redis] are not among the sources; they are modelled
    from the specification, sections 4.1 to 4.3 and 6. *)

Module PersonalizedFeed.

(** Modelled from the spec: the configuration constants of the missing
    [src/personalizedFeed.ts] (section 9: staleness threshold and fresh
    window are tunable, with defaults), the ranking service address and
    token of section 6. Times are milliseconds. *)
Record Config := {
  feedUrl : string;
  token : string;
  staleThreshold : Z;
  freshPageSize : nat;
}.

(** Modelled from the spec: the defaults of the missing configuration, a
    30 minute threshold and [freshPageSize = 1] (section 4.3, step 4);
    address and token as the tests of the repository set them. *)
Definition defaultConfig : Config :=
  {| feedUrl := "http://localhost:6000/feed.json";
     token := "token";
     staleThreshold := 30 * 60 * 1000;
     freshPageSize := 1 |}.

(** Modelled from the spec: the Cache Store of section 4.1, absent from
    the sources ([src/redis]). One key space holds the rank-ordered id
    sequences (rank = position) and the last-updated values. *)
Inductive Entry := Ranked (ids : list string) | Stamp (t : Z).

(** Modelled from the spec: [getValue(timeKey)] of section 4.1. *)
Definition getValue (store : gmap string Entry) (key : string) : option Z :=
  match store !! key with
  | Some (Stamp t) => Some t
  | _ => None
  end.

(** Modelled from the spec: the cached sequence under a key, empty when
    the key holds none (section 3, CachedFeed). *)
Definition ranked (store : gmap string Entry) (key : string) : list string :=
  match store !! key with
  | Some (Ranked ids) => ids
  | _ => []
  end.

(** Modelled from the spec: [getRange(key, start, end)] of section 4.1,
    the ids at ranks [start <= r < stop]. *)
Definition getRange (store : gmap string Entry) (key : string) (start stop : nat)
  : list string :=
  take (stop - start) (drop start (ranked store key)).

(** Modelled from the spec: one [addScored] write of section 4.1 at the
    rank after the last one. A member sits at one rank only: an id that
    is cached already stays at its rank (section 4.3, step 4: existing
    entries are not overwritten), any other id takes the next rank. *)
Definition addLast (cached : list string) (id : string) : list string :=
  if existsb (String.eqb id) cached then cached else cached ++ [id].

(** Modelled from the spec: the batched [addScored] writes of section
    4.3, step 4: the ids are written in response order at the ranks
    that continue from the current maximum rank. *)
Definition appendRanked (key : string) (ids : list string) (store : gmap string Entry)
  : gmap string Entry :=
  <[ key := Ranked (foldl addLast (ranked store key) ids) ]> store.

(** Modelled from the spec: [setWithValue(timeKey, timestamp)] of
    section 4.1. *)
Definition setValue (key : string) (t : Z) (store : gmap string Entry)
  : gmap string Entry :=
  <[ key := Stamp t ]> store.

(** Modelled from the spec: [deleteByPattern] of section 4.1 for a
    pattern [prefix*], as the bulk invalidation [feeds:*] of section 6. *)
Definition deleteKeysByPrefix (pre : string) (store : gmap string Entry)
  : gmap string Entry :=
  filter (fun kv => String.prefix pre kv.1 = false) store.

(** Modelled from the spec: the cache key of section 6,
    [feeds:{feedId|"anonymous"}[:{userId}]]. *)
Definition getPersonalizedFeedKey (userId feedId : option string) : string :=
  "feeds:" +:+
  match feedId with
  | Some f => if Str.truthy f then f else "anonymous"
  | None => "anonymous"
  end +:+
  match userId with
  | Some u => if Str.truthy u then ":" +:+ u else EmptyString
  | None => EmptyString
  end.

(** Modelled from the spec: the key of the last-updated value,
    [{key}:time] (section 6). *)
Definition timeKey (key : string) : string := key +:+ ":time".

(** Modelled from the spec: the query construction rule of the Ranking
    Client (section 4.2 and the HTTP contract of section 6); the client
    is part of the missing [src/personalizedFeed.ts]. *)
Definition rankingQuery (cfg : Config) (pageSize : nat) (userId : option string)
    (filters : option AnonymousFeedFilters) : string :=
  let params :=
    "token=" +:+ token cfg +:+ "&page_size=" +:+ Str.ofNat pageSize +:+
    "&fresh_page_size=" +:+ Str.ofNat (freshPageSize cfg) in
  let params :=
    match userId with
    | Some u => if Str.truthy u then params +:+ "&user_id=" +:+ u else params
    | None => params
    end in
  let params :=
    if Str.nonEmpty (filters ≫= includeTags)
    then params +:+ "&allowed_tags=" +:+ Str.join "," (Str.arr (filters ≫= includeTags))
    else params in
  let params :=
    if Str.nonEmpty (filters ≫= blockedTags)
    then params +:+ "&blocked_tags=" +:+ Str.join "," (Str.arr (filters ≫= blockedTags))
    else params in
  let params :=
    if Str.nonEmpty (filters ≫= excludeSources)
    then params +:+ "&blocked_sources=" +:+ Str.join "," (Str.arr (filters ≫= excludeSources))
    else params in
  params.

(** Modelled from the spec: one optional list parameter of the query
    as section 4.2 words it: present, comma-joined, only when the list
    is not empty. *)
Definition listParam (name : string) (l : option (list string)) : list (string * string) :=
  if Str.nonEmpty l then [(name, Str.join "," (Str.arr l))] else [].

(** Modelled from the spec: the parameters of the query as section
    4.2 lists them, in its fixed order, to be compared with
    [rankingQuery]. *)
Definition expectedParams (cfg : Config) (pageSize : nat) (userId : option string)
    (filters : option AnonymousFeedFilters) : list (string * string) :=
  [("token", token cfg); ("page_size", Str.ofNat pageSize);
   ("fresh_page_size", Str.ofNat (freshPageSize cfg))]
  ++ match userId with
     | Some u => if Str.truthy u then [("user_id", u)] else []
     | None => []
     end
  ++ listParam "allowed_tags" (filters ≫= includeTags)
  ++ listParam "blocked_tags" (filters ≫= blockedTags)
  ++ listParam "blocked_sources" (filters ≫= excludeSources).

(** Modelled from the spec: the fixed order of the parameter names
    (section 4.2). *)
Definition parameterOrder : list string :=
  ["token"; "page_size"; "fresh_page_size"; "user_id";
   "allowed_tags"; "blocked_tags"; "blocked_sources"].

(** Modelled from the spec: what a request of the missing cache
    manager leaves behind, the cache and the requests sent to the
    ranking service, oldest first. *)
Record World := { store : gmap string Entry; calls : list string }.

(** Modelled from the spec: the personalization filters of a request,
    read from the feed configuration when a feed id is given (sections
    4.3 step 4 and 6); the caller is the missing
    [src/personalizedFeed.ts], the conversion is [feedToFilters]. *)
Definition personalFilters (con : Database) (feedId : option string)
  : option AnonymousFeedFilters :=
  match feedId with
  | Some f => if Str.truthy f then Some (feedToFilters con f) else None
  | None => None
  end.

(** Modelled from the spec: the request of section 6,
    [GET {base}/feed.json?{query}], sent by the missing Ranking Client. *)
Definition rankingUrl (cfg : Config) (con : Database) (pageSize : nat)
    (userId feedId : option string) : string :=
  feedUrl cfg +:+ "?" +:+ rankingQuery cfg pageSize userId (personalFilters con feedId).

(** Modelled from the spec: [fetchRanking] of section 4.2, from the
    missing [src/personalizedFeed.ts]. The service answers a URL with
    the ranked ids of a 200 response, or fails. *)
Definition fetchRanking (cfg : Config) (con : Database)
    (service : string -> option (list string))
    (pageSize : nat) (userId feedId : option string) (w : World)
  : option (list string) * World :=
  let url := rankingUrl cfg con pageSize userId feedId in
  (service url, {| store := store w; calls := calls w ++ [url] |}).

(** Modelled from the spec: the freshness test of section 4.3, step 3.
    A fetch is due when there is no timestamp, when the page ends beyond
    the cached ranks, or when the cache is older than the threshold and
    the offset lies in the fresh window. *)
Definition shouldFetch (cfg : Config) (now : Z) (store : gmap string Entry)
    (key : string) (pageSize offset : nat) : bool :=
  match getValue store (timeKey key) with
  | None => true
  | Some t =>
      (length (ranked store key) <? offset + pageSize)%nat
      || ((staleThreshold cfg <? now - t)%Z && (offset <? freshPageSize cfg)%nat)
  end.

(** Modelled from the spec: [getFeed] of section 4.3, exported by the
    missing [src/personalizedFeed.ts] as [generatePersonalizedFeed].
    Without a fetch the page is read from the cache (steps 3 and 5).
    After a fetch the page is cut from the ranking response: the test
    'should fetch anonymous feed even when cache is old' expects the
    fetched ids from a cache that holds older ones, which steps 4 and 5
    read together do not give (see
    [generatePersonalizedFeedFromCache]). On a cache that holds nothing
    under the key, and for a response that names no id twice, the two
    readings return the same page and leave the same cache. [None] is
    a failed request. *)
Definition generatePersonalizedFeed (cfg : Config) (con : Database)
    (service : string -> option (list string)) (now : Z) (w : World)
    (pageSize offset : nat) (userId feedId : option string)
  : option (list string) * World :=
  let key := getPersonalizedFeedKey userId feedId in
  if shouldFetch cfg now (store w) key pageSize offset then
    match fetchRanking cfg con service pageSize userId feedId w with
    | (Some ids, w') =>
        (Some (take pageSize (drop offset ids)),
         {| store := store w' |> appendRanked key ids |> setValue (timeKey key) now;
            calls := calls w' |})
    | (None, w') => (None, w')
    end
  else
    (Some (getRange (store w) key offset (offset + pageSize)), w).

(** Modelled from the spec: [getFeed] with step 5 of section 4.3 read
    to the letter, the page being read from the cache also after a
    fetch. It is kept for comparison only: the test 'should fetch
    anonymous feed even when cache is old' expects the fetched ids. *)
Definition generatePersonalizedFeedFromCache (cfg : Config) (con : Database)
    (service : string -> option (list string)) (now : Z) (w : World)
    (pageSize offset : nat) (userId feedId : option string)
  : option (list string) * World :=
  let key := getPersonalizedFeedKey userId feedId in
  if shouldFetch cfg now (store w) key pageSize offset then
    match fetchRanking cfg con service pageSize userId feedId w with
    | (Some ids, w') =>
        let store' := store w' |> appendRanked key ids |> setValue (timeKey key) now in
        (Some (getRange store' key offset (offset + pageSize)),
         {| store := store'; calls := calls w' |})
    | (None, w') => (None, w')
    end
  else
    (Some (getRange (store w) key offset (offset + pageSize)), w).

(** Modelled from the spec: the cache written anew on a fetch, the
    fetched ids taking the ranks from the first one. This is against
    the appending of step 4 and kept for comparison only. *)
Definition replaceRanked (key : string) (ids : list string) (store : gmap string Entry)
  : gmap string Entry :=
  <[ key := Ranked (foldl addLast [] ids) ]> store.

(** Modelled from the spec: [getFeed] with step 5 of section 4.3 read
    to the letter and the cache written anew on a fetch. It is kept for
    comparison only: it gives what [__tests__/personalizedFeed.ts]
    expects, as [generatePersonalizedFeed] does, and leaves another
    cache behind when the cache held ids before the fetch. *)
Definition generatePersonalizedFeedReplacing (cfg : Config) (con : Database)
    (service : string -> option (list string)) (now : Z) (w : World)
    (pageSize offset : nat) (userId feedId : option string)
  : option (list string) * World :=
  let key := getPersonalizedFeedKey userId feedId in
  if shouldFetch cfg now (store w) key pageSize offset then
    match fetchRanking cfg con service pageSize userId feedId w with
    | (Some ids, w') =>
        let store' := store w' |> replaceRanked key ids |> setValue (timeKey key) now in
        (Some (getRange store' key offset (offset + pageSize)),
         {| store := store'; calls := calls w' |})
    | (None, w') => (None, w')
    end
  else
    (Some (getRange (store w) key offset (offset + pageSize)), w).

End PersonalizedFeed.

(** ** Reading a fragment for one post *)

(** Whether fragment [c], built on builder [b], is TRUE for [post] bound
    to [alias]. *)
Definition holdsFor (db : Database) (b : SelectQueryBuilder) (alias : string)
    (post : PostRow) (c : Cond) : bool :=
  Tri.holds (evalCond db (parameters b) [(alias, postRow post)] c).

(** The same for a query that has to run: the database accepts the
    fragment, with [alias] standing for the post table, and the fragment
    is TRUE for [post]. *)
Definition holdsWhenRun (db : Database) (b : SelectQueryBuilder) (alias : string)
    (post : PostRow) (c : Cond) : bool :=
  accepted (parameters b) [(alias, Post)] c && holdsFor db b alias post c.

(** The post carries a keyword among [tags]. *)
Definition hasKeywordIn (db : Database) (post : PostRow) (tags : list string) : Prop :=
  exists r, In r (postKeywords db) /\ pk_postId r = p_id post /\ In (pk_keyword r) tags.

(** The tags configured for a feed, blocked or not. *)
Definition tagsOfFeed (db : Database) (feedId : string) : list string :=
  ft_tag <$> List.filter (fun t => String.eqb (ft_feedId t) feedId) (feedTags db).

(** An id that holds no single quote: only such an id stays inside the
    quotes it is interpolated between. *)
Fixpoint quoteFree (s : string) : bool :=
  match s with
  | EmptyString => true
  | String ch rest => negb (Ascii.eqb ch "'") && quoteFree rest
  end.

Import PersonalizedFeed.

(** ** Reading the fragments *)

(** Whether a [PostKeyword] row makes the sub-query of [whereTags]
    non-empty: its keyword is among the tags and it belongs to the post
    bound to [alias]. *)
Definition keywordRowMatches (tags : list string) (alias : string) (env : Env)
    (r : PostKeywordRow) : bool :=
  existsb (String.eqb (pk_keyword r)) tags
  && Tri.holds (eq3 (VStr (pk_postId r))
                    (colValue (("pk", postKeywordRow r) :: env) (col alias "id"))).

(** The sub-query listing the tags of a feed. *)
Definition feedTagQuery : Query :=
  Select (SelCol (col "feed" "tag")) FeedTag "feed"
         (Some (CEqParam (col "feed" "feedId") "feedId")).

(** The sub-query of [applyFeedWhere] over the active sources. *)
Definition sourceQuery (alias : string) : Query :=
  Select SelAll Source "source"
    (Some (CAnd (CAnd (CEqBool (col "source" "active") true false)
                      (CEqCol (col "source" "id") (colQQ alias "sourceId")))
                (CEqBool (col alias "deleted") false false))).

(** The left join of [applyFeedWhere] on the posts a viewer has hidden. *)
Definition hiddenJoin (alias : string) : Join :=
  {| jKind := LeftJoin; jEntity := HiddenPost; jAlias := "hidden";
     jOn := CAnd (CEqCol (col "hidden" "postId") (colA alias "id"))
                 (CEqParam (col "hidden" "userId") "userId") |}.

(** The correlated existence sub-query over [PostKeyword]. *)
Definition tagFragment (alias variableAlias : string) : Cond :=
  CExists (Select SelOne PostKeyword "pk"
    (Some (CAnd (CInParam (col "pk" "keyword") variableAlias)
                (CEqCol (col "pk" "postId") (col alias "id"))))).

(** The conditions [anonymousFeedBuilder] adds for the sources. *)
Definition sourceConds (f : AnonymousFeedFilters) (alias : string) : list Cond :=
  if Str.nonEmpty (includeSources f) then [CInParam (colQ alias "sourceId") "sources"]
  else if Str.nonEmpty (excludeSources f) then [CNotInParam (colQ alias "sourceId") "sources"]
  else [].

(** The conditions [anonymousFeedBuilder] adds for the tags. *)
Definition tagConds (f : AnonymousFeedFilters) (alias : string) : list Cond :=
  (if Str.nonEmpty (includeTags f) then [tagFragment alias "tags"] else [])
  ++ (if Str.nonEmpty (blockedTags f) then [CNot (tagFragment alias "blockedTags")] else []).

(** The query string a list of parameters stands for. *)
Definition renderParams (l : list (string * string)) : string :=
  Str.join "&" ((fun kv => kv.1 +:+ "=" +:+ kv.2) <$> l).

(** ** Fixtures, after the tests of the repository *)

Module Fixture.

Definition emptyDb : Database :=
  {| posts := []; postKeywords := []; feedTags := []; feedSources := [];
     sources := []; hiddenPosts := []; views := [] |}.

(** [tinybirdResponse] of [__tests__/personalizedFeed.ts]. *)
Definition tinybirdResponse : list string := ["1"; "2"; "3"; "4"; "5"; "6"].

Definition anonymousUrl : string :=
  "http://localhost:6000/feed.json?token=token&page_size=2&fresh_page_size=1".

Definition personalUrl : string :=
  "http://localhost:6000/feed.json?token=token&page_size=2&fresh_page_size=1&user_id=u1&allowed_tags=javascript,golang&blocked_tags=python,java&blocked_sources=a,b".

(** The mocked ranking service: answers the one URL of the test. *)
Definition tinybird (expected : string) (url : string) : option (list string) :=
  if String.eqb url expected then Some tinybirdResponse else None.

(** The cache after [deleteKeysByPattern('feeds:*')]. *)
Definition cold : World := {| store := ∅; calls := [] |}.

(** The cache seeded with ids 7 and 8 and a timestamp. *)
Definition seeded (t : Z) : World :=
  {| store := <[ "feeds:anonymous:time" := Stamp t ]>
                (<[ "feeds:anonymous" := Ranked ["7"; "8"] ]> ∅);
     calls := [] |}.

Definition now : Z := 1700000000000.
Definition anHourAgo : Z := now - 60 * 60 * 1000.

(** Feed 1 of user u1 with its tags and sources. *)
Definition feedDb : Database :=
  {| posts := []; postKeywords := [];
     feedTags :=
       [ {| ft_feedId := "1"; ft_tag := "javascript"; ft_blocked := false |};
         {| ft_feedId := "1"; ft_tag := "golang"; ft_blocked := false |};
         {| ft_feedId := "1"; ft_tag := "python"; ft_blocked := true |};
         {| ft_feedId := "1"; ft_tag := "java"; ft_blocked := true |} ];
     feedSources :=
       [ {| fs_feedId := "1"; fs_sourceId := "a" |};
         {| fs_feedId := "1"; fs_sourceId := "b" |} ];
     sources := []; hiddenPosts := []; views := [] |}.

Definition mkPost (id sourceId : string) (deleted banned : bool) : PostRow :=
  {| p_id := id; p_sourceId := sourceId; p_deleted := deleted; p_banned := banned |}.

Definition p1 : PostRow := mkPost "p1" "a" false false.
Definition p2 : PostRow := mkPost "p2" "a" true false.
Definition p3 : PostRow := mkPost "p3" "a" false true.
Definition p4 : PostRow := mkPost "p4" "a" false false.
Definition p5 : PostRow := mkPost "p5" "b" false false.

(** Five posts: p2 is deleted, p3 banned, p4 hidden by u1, p5 comes
    from an inactive source; p1 carries both a javascript and a python
    keyword. *)
Definition blogDb : Database :=
  {| posts := [p1; p2; p3; p4; p5];
     postKeywords :=
       [ {| pk_postId := "p1"; pk_keyword := "javascript" |};
         {| pk_postId := "p1"; pk_keyword := "python" |};
         {| pk_postId := "p4"; pk_keyword := "golang" |} ];
     feedTags := [ {| ft_feedId := "f1"; ft_tag := "javascript"; ft_blocked := false |} ];
     feedSources := [];
     sources := [ {| s_id := "a"; s_active := true |}; {| s_id := "b"; s_active := false |} ];
     hiddenPosts := [ {| h_postId := "p4"; h_userId := "u1" |} ];
     views := [] |}.

(** A database in which a post carries the sentinel as its id. *)
Definition sentinelDb : Database :=
  {| posts := [mkPost "nosuchid" "a" false false; p1];
     postKeywords := []; feedTags := []; feedSources := [];
     sources := [ {| s_id := "a"; s_active := true |} ];
     hiddenPosts := []; views := [] |}.

Definition viewer : Context := {| userId := Some "u1"; premium := false |}.

Definition feed : SelectQueryBuilder := QB.createQueryBuilder Post "p".

(** Filters with both an include-tag and a blocked-tag list. *)
Definition bothTagFilters : AnonymousFeedFilters :=
  {| includeSources := None; excludeSources := None;
     includeTags := Some ["javascript"]; blockedTags := Some ["python"] |}.

(** The same filters without the blocked tags. *)
Definition includeOnlyFilters : AnonymousFeedFilters :=
  {| includeSources := None; excludeSources := None;
     includeTags := Some ["javascript"]; blockedTags := None |}.

(** An id that closes its quote and opens another literal. *)
Definition craftedId : string := "x','p1".

End Fixture.

(** ** Reading the other fragments *)

(** The viewer has a [View] row for the post. *)
Definition viewed (db : Database) (user : string) (post : PostRow) : Prop :=
  exists v, In v (views db) /\ v_userId v = user /\ v_postId v = p_id post.

(** The sources configured for a feed. *)
Definition sourcesOfFeed (db : Database) (feedId : string) : list string :=
  fs_sourceId <$> List.filter (fun r => String.eqb (fs_feedId r) feedId) (feedSources db).

(** The fragment of [whereUnread]. *)
Definition unreadFragment (alias : string) : Cond :=
  CNot (CExists (Select SelOne View "view"
    (Some (CAnd (CEqParam (col "view" "userId") "userId")
                (CEqCol (col "view" "postId") (col alias "id")))))).

(** The tags a feed follows: its tag rows that are not blocked. *)
Definition followedTagsOfFeed (db : Database) (feedId : string) : list string :=
  ft_tag <$> List.filter (fun r => negb (ft_blocked r))
               (List.filter (fun r => String.eqb (ft_feedId r) feedId) (feedTags db)).

(** The tags a feed blocks. *)
Definition blockedTagsOfFeed (db : Database) (feedId : string) : list string :=
  ft_tag <$> List.filter ft_blocked
               (List.filter (fun r => String.eqb (ft_feedId r) feedId) (feedTags db)).

(** What the filters of [anonymousFeedBuilder] ask of a post. *)
Definition meetsFilters (db : Database) (f : AnonymousFeedFilters) (post : PostRow) : Prop :=
  (Str.nonEmpty (includeSources f) = true ->
     In (p_sourceId post) (Str.arr (includeSources f)))
  /\ (Str.nonEmpty (includeSources f) = false -> Str.nonEmpty (excludeSources f) = true ->
       ~ In (p_sourceId post) (Str.arr (excludeSources f)))
  /\ (Str.nonEmpty (includeTags f) = true -> hasKeywordIn db post (Str.arr (includeTags f)))
  /\ (Str.nonEmpty (blockedTags f) = true -> ~ hasKeywordIn db post (Str.arr (blockedTags f))).

(** What [applyFeedWhere] asks of a post, as a test on the tables. *)
Definition allowedPost (db : Database) (ctx : Context)
    (removeHiddenPosts removeBannedPosts : bool) (post : PostRow) : bool :=
  existsb (fun s => s_active s && String.eqb (s_id s) (p_sourceId post)) (sources db)
  && negb (p_deleted post)
  && (if loggedIn ctx && removeHiddenPosts
      then negb (existsb (fun h => String.eqb (h_postId h) (p_id post)
                                   && match userId ctx with
                                      | Some u => String.eqb (h_userId h) u
                                      | None => false
                                      end) (hiddenPosts db))
      else true)
  && (if removeBannedPosts then negb (p_banned post) else true).

(** A database with a view, a second keyword table and feed sources. *)
Module Sample.

Definition q1 : PostRow :=
  {| p_id := "q1"; p_sourceId := "a"; p_deleted := false; p_banned := false |}.
Definition q2 : PostRow :=
  {| p_id := "q2"; p_sourceId := "b"; p_deleted := false; p_banned := false |}.
Definition q3 : PostRow :=
  {| p_id := "q3"; p_sourceId := "c"; p_deleted := false; p_banned := false |}.

Definition db : Database :=
  {| posts := [q1; q2; q3];
     postKeywords :=
       [ {| pk_postId := "q1"; pk_keyword := "javascript" |};
         {| pk_postId := "q2"; pk_keyword := "golang" |};
         {| pk_postId := "q3"; pk_keyword := "javascript" |};
         {| pk_postId := "q3"; pk_keyword := "python" |} ];
     feedTags :=
       [ {| ft_feedId := "f1"; ft_tag := "javascript"; ft_blocked := false |};
         {| ft_feedId := "f2"; ft_tag := "rust"; ft_blocked := false |};
         {| ft_feedId := "f1"; ft_tag := "python"; ft_blocked := true |} ];
     feedSources := [ {| fs_feedId := "f1"; fs_sourceId := "b" |} ];
     sources := [ {| s_id := "a"; s_active := true |}; {| s_id := "b"; s_active := true |};
                  {| s_id := "c"; s_active := true |} ];
     hiddenPosts := [];
     views := [ {| v_userId := "u1"; v_postId := "q2" |} ] |}.

Definition viewer : Context := {| userId := Some "u1"; premium := false |}.

Definition feed : SelectQueryBuilder := QB.createQueryBuilder Post "p".

(** Filters that leave source b out, ask for javascript and block python. *)
Definition filters : AnonymousFeedFilters :=
  {| includeSources := None; excludeSources := Some ["b"];
     includeTags := Some ["javascript"]; blockedTags := Some ["python"] |}.

End Sample.

(** * Properties *)

(** Looking a closed name up in the parameters of a builder. *)
Ltac lookup_params :=
  repeat (rewrite lookup_union || rewrite lookup_singleton || rewrite lookup_empty);
  repeat case_decide; try congruence; cbn;
  repeat match goal with |- context [?m !! ?k] => destruct (m !! k) end;
  try reflexivity.

(** ** Evaluation lemmas *)

Lemma in3_cons x v l : in3 x (v :: l) = Tri.or3 (eq3 x v) (in3 x l).
Proof. reflexivity. Qed.

Lemma in3_str (x : string) (l : list string) :
  in3 (VStr x) (VStr <$> l) = Some (existsb (String.eqb x) l).
Proof.
  induction l as [|y l IH]; [reflexivity|].
  rewrite fmap_cons, in3_cons, IH. cbn.
  destruct (String.eqb x y); simpl; [reflexivity|].
  destruct (existsb (String.eqb x) l); reflexivity.
Qed.

Lemma exists_rows {A} (rowOf : A -> Row) (g : Row -> bool) (f : Row -> Value) (l : list A) :
  match f <$> List.filter g (rowOf <$> l) with [] => false | _ => true end
  = existsb (fun a => g (rowOf a)) l.
Proof.
  induction l as [|a l IH]; [reflexivity|].
  rewrite fmap_cons. cbn [List.filter existsb].
  destruct (g (rowOf a)); [reflexivity | exact IH].
Qed.

Lemma existsb_pointwise {A} (f g : A -> bool) (l : list A) :
  (forall a, f a = g a) -> existsb f l = existsb g l.
Proof. intros E. induction l as [|a l IH]; cbn; [reflexivity|]. now rewrite E, IH. Qed.

Lemma sub_params_lookup (v : string) (x : Param) (ps : gmap string Param) :
  (∅ ∪ ({[v := x]} ∪ ∅) ∪ ps) !! v = Some x.
Proof.
  rewrite (left_id_L ∅ (∪)), (right_id_L ∅ (∪)).
  apply lookup_union_Some_l, lookup_singleton_eq.
Qed.

Lemma whereTags_fragment tags builder alias v :
  (whereTags tags builder alias v).1
  = CExists (Select SelOne PostKeyword "pk"
      (Some (CAnd (CInParam (col "pk" "keyword") v)
                  (CEqCol (col "pk" "postId") (col alias "id"))))).
Proof. reflexivity. Qed.

Lemma whereTags_parameters tags builder alias v :
  parameters (whereTags tags builder alias v).2
  = ∅ ∪ ({[v := PList tags]} ∪ ∅) ∪ parameters builder.
Proof. reflexivity. Qed.

Lemma whereTags_eval db tags builder alias v env :
  evalCond db (parameters (whereTags tags builder alias v).2) env
           (whereTags tags builder alias v).1
  = Some (existsb (keywordRowMatches tags alias env) (postKeywords db)).
Proof.
  rewrite whereTags_fragment, whereTags_parameters.
  cbn [evalCond evalQuery table].
  f_equal. rewrite exists_rows. apply existsb_pointwise. intros r.
  unfold keywordRowMatches.
  rewrite sub_params_lookup.
  change (colValue (("pk", postKeywordRow r) :: env) (col "pk" "keyword"))
    with (VStr (pk_keyword r)).
  change (colValue (("pk", postKeywordRow r) :: env) (col "pk" "postId"))
    with (VStr (pk_postId r)).
  rewrite in3_str.
  destruct (existsb _ tags); [|reflexivity].
  now destruct (eq3 _ _) as [[|]|].
Qed.

Lemma whereNotTags_eval db tags builder alias env :
  evalCond db (parameters (whereNotTags tags builder alias).2) env
           (whereNotTags tags builder alias).1
  = Some (negb (existsb (keywordRowMatches tags alias env) (postKeywords db))).
Proof.
  unfold whereNotTags.
  destruct (whereTags tags builder alias "blockedTags") as [q b] eqn:E.
  cbn [fst snd evalCond].
  replace q with (whereTags tags builder alias "blockedTags").1 by now rewrite E.
  replace b with (whereTags tags builder alias "blockedTags").2 by now rewrite E.
  now rewrite whereTags_eval.
Qed.

(** The database accepts the fragment of [whereTags] exactly when the
    tag list is not empty and the alias of the post is not the alias
    [pk] of the sub-query. *)
Lemma whereTags_accepted tags builder alias v :
  accepted (parameters (whereTags tags builder alias v).2) [(alias, Post)]
           (whereTags tags builder alias v).1
  = match tags with [] => false | _ => true end && negb (String.eqb alias "pk").
Proof.
  rewrite whereTags_fragment, whereTags_parameters.
  cbn [accepted acceptedQuery]. unfold spreadBound. rewrite sub_params_lookup.
  unfold knownCol. cbn [cAlias cName col tableOf].
  destruct (String.eqb_spec "pk" alias) as [<-|Hne].
  - destruct tags; vm_compute; reflexivity.
  - rewrite (String.eqb_refl alias).
    replace (String.eqb alias "pk") with false
      by (symmetry; apply String.eqb_neq; congruence).
    destruct tags; vm_compute; reflexivity.
Qed.

Lemma whereNotTags_accepted tags builder alias :
  accepted (parameters (whereNotTags tags builder alias).2) [(alias, Post)]
           (whereNotTags tags builder alias).1
  = match tags with [] => false | _ => true end && negb (String.eqb alias "pk").
Proof.
  unfold whereNotTags.
  destruct (whereTags tags builder alias "blockedTags") as [q b] eqn:E.
  cbn [fst snd accepted].
  replace q with (whereTags tags builder alias "blockedTags").1 by now rewrite E.
  replace b with (whereTags tags builder alias "blockedTags").2 by now rewrite E.
  apply whereTags_accepted.
Qed.

(** C7, as amended: for a tag list that is not empty and an alias
    other than [pk], the alias of the sub-query, the database accepts
    the fragments of [whereTags] and [whereNotTags] and the two are
    logical complements: for every database, builder and post exactly
    one of the two holds for the post. Both are the correlated
    existence sub-query over [PostKeyword] (the second one negated), and
    neither adds a join to the builder. *)
Theorem whereTags_whereNotTags_complement
    (db : Database) (tags : list string) (builder : SelectQueryBuilder)
    (alias : string) (post : PostRow) :
  tags <> [] -> alias <> "pk" ->
  let t := whereTags tags builder alias "tags" in
  let n := whereNotTags tags builder alias in
  xorb (holdsWhenRun db t.2 alias post t.1) (holdsWhenRun db n.2 alias post n.1) = true
  /\ accepted (parameters t.2) [(alias, Post)] t.1 = true
  /\ accepted (parameters n.2) [(alias, Post)] n.1 = true
  /\ xorb (holdsFor db t.2 alias post t.1) (holdsFor db n.2 alias post n.1) = true
  /\ t.1 = tagFragment alias "tags"
  /\ n.1 = CNot (tagFragment alias "blockedTags")
  /\ joins t.2 = joins builder /\ joins n.2 = joins builder.
Proof.
  intros Htags Halias t n.
  assert (Hok : match tags with [] => false | _ => true end
                && negb (String.eqb alias "pk") = true).
  { destruct tags; [contradiction|].
    now replace (String.eqb alias "pk") with false
      by (symmetry; apply String.eqb_neq; exact Halias). }
  unfold holdsWhenRun, holdsFor. subst t n.
  rewrite whereTags_accepted, whereNotTags_accepted, Hok.
  rewrite whereTags_eval, whereNotTags_eval.
  cbn [andb].
  split; [now destruct (existsb _ _)|].
  split; [reflexivity|]. split; [reflexivity|].
  split; [now destruct (existsb _ _)|].
  repeat split.
Qed.

Lemma colValue_outer (a : string) (r : Row) (alias c : string) (post : PostRow) :
  alias <> a ->
  colValue ((a, r) :: [(alias, postRow post)]) (col alias c) = field c (postRow post).
Proof.
  intros Hne. unfold colValue. cbn [cAlias cName col binding].
  destruct (String.eqb_spec a alias) as [->|_]; [congruence|].
  now rewrite String.eqb_refl.
Qed.

Lemma keywordRowMatches_post tags alias post r :
  alias <> "pk" ->
  keywordRowMatches tags alias [(alias, postRow post)] r = true
  <-> pk_postId r = p_id post /\ In (pk_keyword r) tags.
Proof.
  intros Hne. unfold keywordRowMatches.
  rewrite colValue_outer by exact Hne.
  change (field "id" (postRow post)) with (VStr (p_id post)).
  cbn [eq3 Tri.holds].
  rewrite andb_true_iff, existsb_exists.
  split.
  - intros [[x [Hin Hx]] Hp]. apply String.eqb_eq in Hx. subst x.
    destruct (String.eqb_spec (pk_postId r) (p_id post)); [auto | discriminate].
  - intros [Hp Hin]. split.
    + exists (pk_keyword r). split; [exact Hin | apply String.eqb_refl].
    + rewrite Hp. now rewrite String.eqb_refl.
Qed.

(** What [whereTags] means for a post: it carries one of the tags. *)
Lemma whereTags_meaning db tags builder alias v post :
  alias <> "pk" ->
  holdsFor db (whereTags tags builder alias v).2 alias post (whereTags tags builder alias v).1 = true
  <-> hasKeywordIn db post tags.
Proof.
  intros Hne. unfold holdsFor. rewrite whereTags_eval. cbn [Tri.holds].
  unfold hasKeywordIn.
  transitivity (existsb (keywordRowMatches tags alias [(alias, postRow post)]) (postKeywords db) = true).
  { now destruct (existsb _ _). }
  rewrite existsb_exists.
  split; intros [r [Hin H]]; exists r; (split; [exact Hin|]);
    now apply (keywordRowMatches_post tags alias post r Hne).
Qed.

Lemma whereTagsInFeed_fragment feedId builder alias :
  (whereTagsInFeed feedId builder alias).1
  = COr (CNot (CExists feedTagQuery))
        (CExists (Select SelOne PostKeyword "pk"
           (Some (CAnd (CInQuery (col "pk" "keyword") feedTagQuery)
                       (CEqCol (col "pk" "postId") (col alias "id")))))).
Proof. reflexivity. Qed.

Lemma whereTagsInFeed_feedId feedId builder alias :
  parameters (whereTagsInFeed feedId builder alias).2 !! "feedId" = Some (PStr feedId).
Proof.
  unfold whereTagsInFeed.
  cbn [snd QB.adopt QB.setParameters QB.andWhere QB.where_ QB.from QB.select QB.subQuery
       parameters].
  rewrite !(left_id_L ∅ (∪)), !(right_id_L ∅ (∪)).
  apply lookup_union_Some_l, lookup_singleton_eq.
Qed.

Lemma feedTagQuery_eval db ps env feedId :
  ps !! "feedId" = Some (PStr feedId) ->
  evalQuery db ps env feedTagQuery = VStr <$> tagsOfFeed db feedId.
Proof.
  intros Hp. unfold feedTagQuery, tagsOfFeed. cbn [evalQuery evalCond table].
  rewrite Hp.
  induction (feedTags db) as [|t l IH]; [reflexivity|].
  rewrite fmap_cons. cbn [List.filter].
  change (colValue (("feed", feedTagRow t) :: env) (col "feed" "feedId"))
    with (VStr (ft_feedId t)).
  cbn [eq3 Tri.holds].
  destruct (String.eqb (ft_feedId t) feedId).
  - rewrite !fmap_cons. f_equal. exact IH.
  - exact IH.
Qed.

Lemma whereTagsInFeed_eval db feedId builder alias env :
  evalCond db (parameters (whereTagsInFeed feedId builder alias).2) env
           (whereTagsInFeed feedId builder alias).1
  = Some (match tagsOfFeed db feedId with [] => true | _ => false end
          || existsb (keywordRowMatches (tagsOfFeed db feedId) alias env) (postKeywords db)).
Proof.
  rewrite whereTagsInFeed_fragment.
  pose proof (whereTagsInFeed_feedId feedId builder alias) as Hp.
  set (ps := parameters _) in *.
  cbn [evalCond]. rewrite (feedTagQuery_eval db ps env feedId Hp).
  cbn [evalQuery table]. rewrite exists_rows.
  rewrite (existsb_pointwise _ (keywordRowMatches (tagsOfFeed db feedId) alias env)).
  - destruct (tagsOfFeed db feedId); cbn; [reflexivity|].
    now destruct (existsb _ _).
  - intros r. unfold keywordRowMatches. cbn [evalCond].
    rewrite (feedTagQuery_eval db ps _ feedId Hp).
    change (colValue (("pk", postKeywordRow r) :: env) (col "pk" "keyword"))
      with (VStr (pk_keyword r)).
    change (colValue (("pk", postKeywordRow r) :: env) (col "pk" "postId"))
      with (VStr (pk_postId r)).
    rewrite in3_str.
    destruct (existsb _ (tagsOfFeed db feedId)); [|reflexivity].
    now destruct (eq3 _ _) as [[|]|].
Qed.

(** C8: the fragment of [whereTagsInFeed] is true for a post exactly
    when the post carries a keyword among the tags configured for the
    feed, or the feed has no tag configured; for a feed without tags it
    is true for every post. The alias of the post table is assumed not
    to be the alias [pk] of the sub-query. *)
Theorem whereTagsInFeed_open_policy
    (db : Database) (feedId : string) (builder : SelectQueryBuilder)
    (alias : string) (post : PostRow) :
  alias <> "pk" ->
  let f := whereTagsInFeed feedId builder alias in
  (holdsFor db f.2 alias post f.1 = true
   <-> hasKeywordIn db post (tagsOfFeed db feedId) \/ tagsOfFeed db feedId = [])
  /\ (tagsOfFeed db feedId = [] -> holdsFor db f.2 alias post f.1 = true).
Proof.
  intros Hne f. subst f. unfold holdsFor. rewrite whereTagsInFeed_eval.
  cbn [Tri.holds].
  assert (Hk : existsb (keywordRowMatches (tagsOfFeed db feedId) alias [(alias, postRow post)])
                       (postKeywords db) = true
               <-> hasKeywordIn db post (tagsOfFeed db feedId)).
  { rewrite existsb_exists. unfold hasKeywordIn.
    split; intros [r [Hin H]]; exists r; (split; [exact Hin|]);
      now apply (keywordRowMatches_post _ alias post r Hne). }
  split.
  - destruct (tagsOfFeed db feedId) as [|t ts] eqn:Et.
    + cbn. split; [now right | reflexivity].
    + cbn [orb]. split.
      * intros H. left. apply Hk. now destruct (existsb _ _).
      * intros [H | H]; [|discriminate].
        apply Hk in H. now rewrite H.
  - intros ->. reflexivity.
Qed.

(** *** applyFeedWhere *)

Lemma applyFeedWhere_wheres ctx b alias rh rb :
  wheres (applyFeedWhere ctx b alias rh rb)
  = wheres b ++ [CExists (sourceQuery alias)]
    ++ (if loggedIn ctx && rh then [CIsNull (col "hidden" "postId")] else [])
    ++ (if rb then [CEqBool (colA alias "banned") false true] else []).
Proof.
  unfold applyFeedWhere.
  destruct (loggedIn ctx && rh), rb; cbn; rewrite <- ?app_assoc; reflexivity.
Qed.

Lemma applyFeedWhere_joins ctx b alias rh rb :
  joins (applyFeedWhere ctx b alias rh rb)
  = joins b ++ (if loggedIn ctx && rh then [hiddenJoin alias] else []).
Proof.
  unfold applyFeedWhere.
  destruct (loggedIn ctx && rh), rb; cbn; rewrite ?app_nil_r; reflexivity.
Qed.

Lemma applyFeedWhere_target ctx b alias rh rb :
  target (applyFeedWhere ctx b alias rh rb) = target b.
Proof.
  unfold applyFeedWhere. destruct (loggedIn ctx && rh), rb; reflexivity.
Qed.

Lemma applyFeedWhere_userId ctx b alias rh rb :
  parameters (applyFeedWhere ctx b alias rh rb) !! "userId" = Some (userParam ctx).
Proof.
  unfold applyFeedWhere.
  destruct (loggedIn ctx && rh), rb; cbn;
    rewrite ?(left_id_L ∅ (∪));
    repeat (apply lookup_union_Some_l); apply lookup_singleton_eq.
Qed.

Lemma joinRows_shape db ps j env env' :
  In env' (joinRows db ps j env) -> exists r, env' = (jAlias j, r) :: env.
Proof.
  unfold joinRows.
  set (matches := List.filter _ _).
  destruct matches as [|m ms] eqn:E; destruct (jKind j); cbn.
  - intros [<-|[]]. eauto.
  - intros [].
  - intros [<-|H]; [eauto|].
    apply list_elem_of_In, list_elem_of_fmap in H as [r [-> _]]. eauto.
  - intros [<-|H]; [eauto|].
    apply list_elem_of_In, list_elem_of_fmap in H as [r [-> _]]. eauto.
Qed.

Lemma colValue_skip a r env c :
  a <> cAlias c -> colValue ((a, r) :: env) c = colValue env c.
Proof.
  intros Hne. unfold colValue. cbn [binding].
  destruct (String.eqb_spec a (cAlias c)); [congruence | reflexivity].
Qed.

Lemma colValue_bound env c r :
  binding (cAlias c) env = Some r -> colValue env c = field (cName c) r.
Proof. intros H. unfold colValue. now rewrite H. Qed.

Lemma binding_skip a r env alias :
  a <> alias -> binding alias ((a, r) :: env) = binding alias env.
Proof.
  intros Hne. cbn [binding].
  destruct (String.eqb_spec a alias); [congruence | reflexivity].
Qed.

Lemma joined_binding db ps alias js :
  Forall (fun j => jAlias j <> alias) js ->
  forall envs env,
    In env (foldl (fun envs j => envs ≫= joinRows db ps j) envs js) ->
    exists e0, In e0 envs /\ binding alias env = binding alias e0.
Proof.
  induction 1 as [|j js Hj _ IH]; intros envs env Hin; cbn [foldl] in Hin.
  - eauto.
  - apply IH in Hin as [e1 [Hin1 Hb]].
    apply list_elem_of_In, list_elem_of_bind in Hin1 as [e0 [Hin1 Hin0]].
    apply list_elem_of_In, joinRows_shape in Hin1 as [r ->].
    exists e0. split; [now apply list_elem_of_In|].
    rewrite Hb. now apply binding_skip.
Qed.

Lemma passes_app db ps cs1 cs2 env :
  passes db ps (cs1 ++ cs2) env = passes db ps cs1 env && passes db ps cs2 env.
Proof. unfold passes. apply forallb_app. Qed.

(** The source of the post is active and the post is not deleted. *)
Lemma sourceQuery_holds db ps env alias p :
  alias <> "source" ->
  binding alias env = Some (postRow p) ->
  Tri.holds (evalCond db ps env (CExists (sourceQuery alias))) = true ->
  (exists s, In s (sources db) /\ s_id s = p_sourceId p /\ s_active s = true)
  /\ p_deleted p = false.
Proof.
  intros Hne Hb. unfold sourceQuery. cbn [evalCond evalQuery table].
  rewrite exists_rows. cbn [Tri.holds].
  intros H.
  destruct (existsb _ (sources db)) eqn:Hex; [clear H | discriminate].
  apply existsb_exists in Hex as [s [Hin H]].
  change (colValue (("source", sourceRow s) :: env) (col "source" "active"))
    with (VBool (s_active s)) in H.
  change (colValue (("source", sourceRow s) :: env) (col "source" "id"))
    with (VStr (s_id s)) in H.
  rewrite !colValue_skip in H by (cbn; congruence).
  rewrite (colValue_bound env (colQQ alias "sourceId") _ Hb) in H.
  rewrite (colValue_bound env (col alias "deleted") _ Hb) in H.
  cbn in H.
  destruct (s_active s) eqn:Ea; [|discriminate].
  destruct (String.eqb_spec (s_id s) (p_sourceId p)) as [E|]; [|discriminate].
  destruct (p_deleted p); [discriminate|].
  split; [|reflexivity]. exists s. auto.
Qed.

(** The anti-join on [HiddenPost]: a row that passes [hidden.postId IS
    NULL] belongs to a post the viewer has not hidden. *)
Lemma hiddenJoin_excludes db ps env1 env alias p u :
  alias <> "hidden" ->
  binding alias env1 = Some (postRow p) ->
  ps !! "userId" = Some (PStr u) ->
  In env (joinRows db ps (hiddenJoin alias) env1) ->
  Tri.holds (evalCond db ps env (CIsNull (col "hidden" "postId"))) = true ->
  ~ exists h, In h (hiddenPosts db) /\ h_postId h = p_id p /\ h_userId h = u.
Proof.
  intros Hne Hb Hu Hin Hnull [h [Hh [Hp Hus]]].
  assert (Hmatch : In (hiddenPostRow h)
            (List.filter
               (fun r => Tri.holds (evalCond db ps (("hidden", r) :: env1)
                                             (jOn (hiddenJoin alias))))
               (table db HiddenPost))).
  { apply filter_In. split.
    - cbn [table]. apply list_elem_of_In, list_elem_of_fmap_2, list_elem_of_In, Hh.
    - cbn [hiddenJoin jOn evalCond]. rewrite Hu.
      change (colValue (("hidden", hiddenPostRow h) :: env1) (col "hidden" "postId"))
        with (VStr (h_postId h)).
      change (colValue (("hidden", hiddenPostRow h) :: env1) (col "hidden" "userId"))
        with (VStr (h_userId h)).
      rewrite colValue_skip by (cbn; congruence).
      rewrite (colValue_bound env1 (colA alias "id") _ Hb).
      cbn. rewrite Hp, Hus, !String.eqb_refl. reflexivity. }
  unfold joinRows in Hin. cbn [jAlias jEntity jKind hiddenJoin] in Hin.
  cbn [hiddenJoin jOn] in Hmatch.
  destruct (List.filter _ (table db HiddenPost)) as [|m ms] eqn:E.
  - destruct Hmatch.
  - assert (Hsub : forall r, In r (m :: ms) -> exists h', r = hiddenPostRow h').
    { intros r Hr. rewrite <- E in Hr. apply filter_In in Hr as [Hr _].
      cbn [table] in Hr.
      apply list_elem_of_In, list_elem_of_fmap in Hr as [h' [-> _]]. eauto. }
    apply list_elem_of_In, list_elem_of_fmap in Hin as [r [-> Hr]].
    apply list_elem_of_In, Hsub in Hr as [h' ->].
    discriminate Hnull.
Qed.

(** C9: every post returned by a feed query that went through
    [applyFeedWhere] has an active source and is not deleted; it is not
    banned when [removeBannedPosts] holds; and for a logged-in viewer
    with [removeHiddenPosts] holding, the viewer has not hidden it. The
    builder selects from [Post] under [alias], and no join reuses that
    alias. *)
Theorem applyFeedWhere_exclusion
    (ctx : Context) (builder : SelectQueryBuilder) (alias : string)
    (removeHiddenPosts removeBannedPosts : bool) (db : Database) (post : PostRow) :
  target builder = Some (Post, alias) ->
  alias <> "source" -> alias <> "hidden" ->
  Forall (fun j => jAlias j <> alias) (joins builder) ->
  In post (execute db (applyFeedWhere ctx builder alias removeHiddenPosts removeBannedPosts)) ->
  (exists s, In s (sources db) /\ s_id s = p_sourceId post /\ s_active s = true)
  /\ p_deleted post = false
  /\ (removeBannedPosts = true -> p_banned post = false)
  /\ (loggedIn ctx = true -> removeHiddenPosts = true ->
      ~ exists h, In h (hiddenPosts db) /\ h_postId h = p_id post
                  /\ Some (h_userId h) = userId ctx).
Proof.
  intros Ht Hsrc Hhid Hjs Hin.
  unfold execute in Hin. rewrite applyFeedWhere_target, Ht in Hin.
  pose proof (applyFeedWhere_userId ctx builder alias removeHiddenPosts removeBannedPosts) as Hu.
  set (ps := parameters _) in *.
  apply list_elem_of_In, list_elem_of_bind in Hin as [p [Hin Hp]].
  apply list_elem_of_bind in Hin as [env [Hin Henv]].
  destruct (passes db ps _ env) eqn:Hpass; [|now apply elem_of_nil in Hin].
  apply list_elem_of_singleton in Hin. subst p.
  rewrite applyFeedWhere_wheres, !passes_app in Hpass.
  apply andb_true_iff in Hpass as [_ Hpass].
  apply andb_true_iff in Hpass as [Hsource Hpass].
  apply andb_true_iff in Hpass as [Hhidden Hbanned].
  unfold passes in Hsource. cbn [forallb] in Hsource. rewrite andb_true_r in Hsource.
  unfold joined in Henv. rewrite applyFeedWhere_joins, foldl_app in Henv.
  apply list_elem_of_In in Henv.
  (* the joined row still binds the alias to the post *)
  assert (Hbind : binding alias env = Some (postRow post)
                  /\ (loggedIn ctx && removeHiddenPosts = true ->
                      exists env1, binding alias env1 = Some (postRow post)
                                   /\ In env (joinRows db ps (hiddenJoin alias) env1))).
  { destruct (loggedIn ctx && removeHiddenPosts) eqn:Eh; cbn [foldl] in Henv.
    - apply list_elem_of_In, list_elem_of_bind in Henv as [env1 [Henv Henv1]].
      apply list_elem_of_In in Henv, Henv1.
      apply (joined_binding db ps alias _ Hjs) in Henv1 as [e0 [[<-|[]] Hb]].
      assert (Hb1 : binding alias env1 = Some (postRow post)).
      { rewrite Hb. cbn [binding]. now rewrite String.eqb_refl. }
      split; [|intros _; eauto].
      apply joinRows_shape in Henv as [r ->].
      rewrite binding_skip by (cbn; congruence). exact Hb1.
    - split; [|discriminate].
      apply (joined_binding db ps alias _ Hjs) in Henv as [e0 [[<-|[]] Hb]].
      rewrite Hb. cbn [binding]. now rewrite String.eqb_refl. }
  destruct Hbind as [Hb Hjoin].
  destruct (sourceQuery_holds db ps env alias post Hsrc Hb Hsource) as [Hs Hd].
  repeat split; [exact Hs | exact Hd | |].
  - intros ->. unfold passes in Hbanned. cbn [forallb evalCond] in Hbanned.
    rewrite (colValue_bound env (colA alias "banned") _ Hb) in Hbanned.
    cbn in Hbanned. now destruct (p_banned post).
  - intros Hl -> [h [Hh [Hp' Hus]]].
    rewrite Hl in Hhidden, Hjoin. cbn [andb] in Hhidden, Hjoin.
    destruct (Hjoin eq_refl) as [env1 [Hb1 Hin1]].
    unfold passes in Hhidden. cbn [forallb] in Hhidden. rewrite andb_true_r in Hhidden.
    unfold loggedIn in Hl. destruct (userId ctx) as [u|] eqn:Eu; [|discriminate].
    assert (Hps : ps !! "userId" = Some (PStr u)).
    { rewrite Hu. unfold userParam. now rewrite Eu. }
    apply (hiddenJoin_excludes db ps env1 env alias post u Hhid Hb1 Hps Hin1 Hhidden).
    exists h. repeat split; [exact Hh | exact Hp' | congruence].
Qed.

(** *** fixedIdsFeedBuilder *)

Lemma append_cons (ch : ascii) (a b : string) : String ch a +:+ b = String ch (a +:+ b).
Proof. reflexivity. Qed.

Lemma append_nil_r (s : string) : s +:+ EmptyString = s.
Proof. induction s as [|c s IH]; [reflexivity|]. now rewrite append_cons, IH. Qed.

Lemma append_assoc (a b c : string) : (a +:+ b) +:+ c = a +:+ b +:+ c.
Proof. induction a as [|x a IH]; [reflexivity|]. now rewrite !append_cons, IH. Qed.

Lemma parseLits_inside (id : string) :
  quoteFree id = true ->
  forall cur rest acc,
    parseLits (Inside cur) (id +:+ String "'" rest) acc
    = parseLits ExpectSep rest ((cur +:+ id) :: acc).
Proof.
  induction id as [|ch id IH]; intros Hq cur rest acc.
  - rewrite append_nil_r. reflexivity.
  - cbn [quoteFree] in Hq. apply andb_true_iff in Hq as [Hch Hq].
    apply negb_true_iff in Hch.
    rewrite append_cons. cbn [parseLits]. rewrite Hch.
    rewrite (IH Hq). now rewrite append_assoc.
Qed.

Lemma parseLits_quoted (id rest : string) (acc : list string) :
  quoteFree id = true ->
  parseLits ExpectOpen (("'" +:+ id +:+ "'") +:+ rest) acc
  = parseLits ExpectSep rest (id :: acc).
Proof.
  intros Hq.
  change (("'" +:+ id +:+ "'") +:+ rest) with (String "'" ((id +:+ "'") +:+ rest)).
  rewrite append_assoc.
  change ("'" +:+ rest) with (String "'" rest).
  cbn [parseLits]. change (Ascii.eqb "'" "'") with true. cbn iota.
  now rewrite (parseLits_inside id Hq).
Qed.

Lemma parseLits_join (ids : list string) :
  Forall (fun id => quoteFree id = true) ids ->
  ids <> [] ->
  forall acc,
    parseLits ExpectOpen (Str.join "," ((fun id => "'" +:+ id +:+ "'") <$> ids)) acc
    = Some (rev acc ++ ids).
Proof.
  induction 1 as [|x ids Hx Hids IH]; intros Hne acc; [congruence|].
  destruct ids as [|y ids].
  - cbn [fmap list_fmap Str.join].
    rewrite <- (append_nil_r ("'" +:+ x +:+ "'")).
    rewrite (parseLits_quoted x EmptyString acc Hx). reflexivity.
  - rewrite fmap_cons.
    change (Str.join "," (("'" +:+ x +:+ "'") :: ((fun id => "'" +:+ id +:+ "'") <$> y :: ids)))
      with (("'" +:+ x +:+ "'") +:+ "," +:+
            Str.join "," ((fun id => "'" +:+ id +:+ "'") <$> y :: ids)).
    rewrite (parseLits_quoted x _ acc Hx).
    change ("," +:+ ?s) with (String "," s).
    cbn [parseLits]. change (Ascii.eqb "," ",") with true. cbn iota.
    rewrite IH by discriminate.
    cbn [rev]. now rewrite <- app_assoc.
Qed.

(** The interpolated text of quote-free ids reads back as those ids;
    the sentinel stands in for an empty list. *)
Lemma literals_idsStr (ids : list string) :
  Forall (fun id => quoteFree id = true) ids ->
  literals (idsStr ids) = Some (match ids with [] => ["nosuchid"] | _ => ids end).
Proof.
  intros Hq. destruct ids as [|x ids]; [reflexivity|].
  unfold literals, idsStr. now rewrite parseLits_join.
Qed.

Lemma fixedIds_wheres ctx ids b alias :
  wheres (fixedIdsFeedBuilder ctx ids b alias)
  = wheres b ++ [CInText (col alias "id") (idsStr ids)].
Proof. reflexivity. Qed.

Lemma in3_str_holds (x : string) (l : list string) :
  Tri.holds (in3 (VStr x) (VStr <$> l)) = true <-> In x l.
Proof.
  rewrite in3_str. cbn [Tri.holds].
  transitivity (existsb (String.eqb x) l = true).
  { now destruct (existsb _ _). }
  rewrite existsb_exists. split.
  - intros [y [Hin Hy]]. apply String.eqb_eq in Hy. now subst.
  - intros Hin. exists x. split; [exact Hin | apply String.eqb_refl].
Qed.

(** A post returned by the fixed-ids feed is one of the literals the
    interpolated text denotes. *)
Lemma fixedIds_execute ctx ids b alias db post l :
  target b = Some (Post, alias) ->
  Forall (fun j => jAlias j <> alias) (joins b) ->
  literals (idsStr ids) = Some l ->
  In post (execute db (fixedIdsFeedBuilder ctx ids b alias)) ->
  In (p_id post) l /\ In post (posts db).
Proof.
  intros Ht Hjs Hl Hin.
  unfold execute in Hin.
  change (target (fixedIdsFeedBuilder ctx ids b alias)) with (target b) in Hin.
  rewrite Ht in Hin.
  change (joins (fixedIdsFeedBuilder ctx ids b alias)) with (joins b) in Hin.
  set (ps := parameters _) in *.
  apply list_elem_of_In, list_elem_of_bind in Hin as [p [Hin Hp]].
  apply list_elem_of_bind in Hin as [env [Hin Henv]].
  destruct (passes db ps _ env) eqn:Hpass; [|now apply elem_of_nil in Hin].
  apply list_elem_of_singleton in Hin. subst p.
  split; [|now apply list_elem_of_In].
  rewrite fixedIds_wheres, passes_app in Hpass.
  apply andb_true_iff in Hpass as [_ Hpass].
  unfold passes in Hpass. cbn [forallb evalCond] in Hpass. rewrite andb_true_r, Hl in Hpass.
  apply list_elem_of_In, (joined_binding db ps alias _ Hjs) in Henv as [e0 [[<-|[]] Hb]].
  assert (Hb' : binding alias env = Some (postRow post)).
  { rewrite Hb. cbn [binding]. now rewrite String.eqb_refl. }
  rewrite (colValue_bound env (col alias "id") _ Hb') in Hpass.
  change (field (cName (col alias "id")) (postRow post)) with (VStr (p_id post)) in Hpass.
  now apply in3_str_holds.
Qed.

Lemma no_elements {A} (l : list A) : (forall x, ~ In x l) -> l = [].
Proof. destruct l as [|a l]; [reflexivity|]. intros H. destruct (H a). now left. Qed.

(** C10, as amended: with an empty id list [fixedIdsFeedBuilder] adds
    the well-formed condition [alias.id IN ('nosuchid')], whose text is
    a list of one literal; the feed is empty provided no post has the id
    nosuchid. *)
Theorem fixedIdsFeedBuilder_empty_ids
    (ctx : Context) (builder : SelectQueryBuilder) (alias : string) (db : Database) :
  target builder = Some (Post, alias) ->
  Forall (fun j => jAlias j <> alias) (joins builder) ->
  (forall p, In p (posts db) -> p_id p <> "nosuchid") ->
  let b := fixedIdsFeedBuilder ctx [] builder alias in
  wheres b = wheres builder ++ [CInText (col alias "id") "'nosuchid'"]
  /\ render (CInText (col alias "id") "'nosuchid'") = alias +:+ ".id IN ('nosuchid')"
  /\ literals "'nosuchid'" = Some ["nosuchid"]
  /\ execute db b = [].
Proof.
  intros Ht Hjs Hno b. subst b.
  split; [reflexivity|]. split.
  { unfold render, renderCol. cbn [cQuote cAlias cName col].
    now rewrite !append_assoc. }
  split; [reflexivity|].
  apply no_elements. intros post Hin.
  destruct (fixedIds_execute ctx [] builder alias db post ["nosuchid"] Ht Hjs eq_refl Hin)
    as [[E|[]] Hp].
  apply (Hno post Hp). now symmetry.
Qed.

(** C5, as amended: [fixedIdsFeedBuilder] validates nothing and
    rejects nothing. It puts each id between single quotes, joins them
    with commas and interpolates that text into the IN list and into the
    ORDER BY array_position expression, binding no parameter. When no id
    holds a single quote, the text denotes exactly the ids given. *)
Theorem fixedIdsFeedBuilder_interpolates
    (ctx : Context) (ids : list string) (builder : SelectQueryBuilder) (alias : string) :
  let b := fixedIdsFeedBuilder ctx ids builder alias in
  let text := match ids with
              | [] => "'nosuchid'"
              | _ => Str.join "," ((fun id => "'" +:+ id +:+ "'") <$> ids)
              end in
  wheres b = wheres builder ++ [CInText (col alias "id") text]
  /\ orderBys b = Some ("array_position(array[" +:+ text +:+ "], " +:+ alias +:+ ".id)")
  /\ parameters b = parameters builder
  /\ (Forall (fun id => quoteFree id = true) ids ->
      literals text = Some (match ids with [] => ["nosuchid"] | _ => ids end)).
Proof.
  intros b text. subst b text.
  change (match ids with
          | [] => "'nosuchid'"
          | _ => Str.join "," ((fun id => "'" +:+ id +:+ "'") <$> ids)
          end) with (idsStr ids).
  split; [reflexivity|]. split; [reflexivity|]. split.
  - cbn. now rewrite (left_id_L ∅ (∪)).
  - exact (literals_idsStr ids).
Qed.

(** *** anonymousFeedBuilder *)

Lemma anonymousFeedBuilder_wheres ctx f builder alias :
  wheres (anonymousFeedBuilder ctx (Some f) builder alias)
  = wheres builder ++ sourceConds f alias ++ tagConds f alias.
Proof.
  unfold anonymousFeedBuilder, sourceConds, tagConds.
  cbn [mbind option_bind].
  destruct (Str.nonEmpty (includeSources f)), (Str.nonEmpty (excludeSources f)),
    (Str.nonEmpty (includeTags f)), (Str.nonEmpty (blockedTags f));
    cbn; rewrite <- ?app_assoc, ?app_nil_r; reflexivity.
Qed.

(** C6, as amended: [anonymousFeedBuilder] breaks the tie between
    include and exclude for sources only (include if present, else
    exclude if present, else no filter). The tag filters are
    independent: the include-tag fragment is added whenever
    [includeTags] is not empty and the blocked-tag fragment whenever
    [blockedTags] is not empty, each with its own parameter. *)
Theorem anonymousFeedBuilder_filters
    (ctx : Context) (f : AnonymousFeedFilters) (builder : SelectQueryBuilder)
    (alias : string) :
  let b := anonymousFeedBuilder ctx (Some f) builder alias in
  wheres b = wheres builder ++ sourceConds f alias ++ tagConds f alias
  /\ parameters b !! "sources"
     = (if Str.nonEmpty (includeSources f) then Some (PList (Str.arr (includeSources f)))
        else if Str.nonEmpty (excludeSources f) then Some (PList (Str.arr (excludeSources f)))
        else parameters builder !! "sources")
  /\ parameters b !! "tags"
     = (if Str.nonEmpty (includeTags f) then Some (PList (Str.arr (includeTags f)))
        else parameters builder !! "tags")
  /\ parameters b !! "blockedTags"
     = (if Str.nonEmpty (blockedTags f) then Some (PList (Str.arr (blockedTags f)))
        else parameters builder !! "blockedTags").
Proof.
  intros b. subst b. split; [apply anonymousFeedBuilder_wheres|].
  unfold anonymousFeedBuilder. cbn [mbind option_bind].
  destruct (Str.nonEmpty (includeSources f)), (Str.nonEmpty (excludeSources f)),
    (Str.nonEmpty (includeTags f)), (Str.nonEmpty (blockedTags f));
    unfold QB.andWhereFn, whereNotTags, whereTags;
    cbn [QB.andWhere QB.adopt QB.setParameters QB.where_ QB.from QB.select QB.subQuery
         parameters fst snd];
    repeat split; lookup_params.
Qed.

(** ** The personalized feed *)

Lemma join_snoc (sep : string) (l : list string) (y : string) :
  l <> [] -> Str.join sep (l ++ [y]) = Str.join sep l +:+ sep +:+ y.
Proof.
  induction l as [|x l IH]; [congruence|]. intros _.
  destruct l as [|x' l]; [reflexivity|].
  change (Str.join sep ((x :: x' :: l) ++ [y]))
    with (x +:+ sep +:+ Str.join sep ((x' :: l) ++ [y])).
  rewrite IH by discriminate.
  change (Str.join sep (x :: x' :: l)) with (x +:+ sep +:+ Str.join sep (x' :: l)).
  now rewrite !append_assoc.
Qed.

Lemma renderParams_step (l : list (string * string)) (present : bool) (k v : string) :
  l <> [] ->
  (if present then renderParams l +:+ ("&" +:+ k +:+ "=") +:+ v else renderParams l)
  = renderParams (l ++ (if present then [(k, v)] else [])).
Proof.
  intros Hne. destruct present; [|now rewrite app_nil_r].
  unfold renderParams. rewrite fmap_app.
  change ((fun kv : string * string => kv.1 +:+ "=" +:+ kv.2) <$> [(k, v)])
    with [k +:+ "=" +:+ v].
  rewrite join_snoc.
  - now rewrite !append_assoc.
  - destruct l; [congruence | discriminate].
Qed.

Lemma in_keys_listParam (k name : string) (l : option (list string)) :
  In k (fst <$> listParam name l) <-> k = name /\ Str.nonEmpty l = true.
Proof.
  unfold listParam. destruct (Str.nonEmpty l); cbn.
  - split; [intros [<-|[]]; auto | intros [-> _]; auto].
  - split; [intros [] | intros [_ H]; discriminate].
Qed.

Lemma truthy_iff (u : string) : Str.truthy u = true <-> u <> EmptyString.
Proof.
  unfold Str.truthy. destruct (String.eqb_spec u EmptyString); cbn; split; congruence.
Qed.

Lemma in_keys_expected (k : string) cfg pageSize userId filters :
  In k (fst <$> expectedParams cfg pageSize userId filters)
  <-> (k = "token" \/ k = "page_size" \/ k = "fresh_page_size")
      \/ (k = "user_id" /\ exists u, userId = Some u /\ u <> EmptyString)
      \/ (k = "allowed_tags" /\ Str.nonEmpty (filters ≫= includeTags) = true)
      \/ (k = "blocked_tags" /\ Str.nonEmpty (filters ≫= blockedTags) = true)
      \/ (k = "blocked_sources" /\ Str.nonEmpty (filters ≫= excludeSources) = true).
Proof.
  unfold expectedParams. rewrite !fmap_app, !in_app_iff, !in_keys_listParam.
  assert (Hu : In k (fst <$> match userId with
                             | Some u => if Str.truthy u then [("user_id", u)] else []
                             | None => []
                             end)
               <-> k = "user_id" /\ exists u, userId = Some u /\ u <> EmptyString).
  { destruct userId as [u|]; [destruct (Str.truthy u) eqn:E|]; cbn.
    - apply truthy_iff in E. split.
      + intros [<-|[]]. eauto.
      + intros [-> _]. now left.
    - split; [intros []|]. intros [_ [u' [[= <-] Hu]]].
      apply truthy_iff in Hu. congruence.
    - split; [intros []|]. intros [_ [u' [[=] _]]]. }
  rewrite Hu. cbn [fmap list_fmap fst In].
  intuition congruence.
Qed.

(** C4: the query string of the Ranking Client is the [&]-joined list
    of [name=value] pairs of [expectedParams]: token, page_size and
    fresh_page_size always, then user_id, allowed_tags, blocked_tags and
    blocked_sources, in that order, the list values comma-joined; each
    of the four optional names is present exactly when its value is
    present and not empty. *)
Theorem rankingQuery_parameters
    (cfg : Config) (pageSize : nat) (userId : option string)
    (filters : option AnonymousFeedFilters) :
  let ps := expectedParams cfg pageSize userId filters in
  rankingQuery cfg pageSize userId filters = renderParams ps
  /\ sublist (fst <$> ps) parameterOrder
  /\ (In "user_id" (fst <$> ps) <-> exists u, userId = Some u /\ u <> EmptyString)
  /\ (In "allowed_tags" (fst <$> ps) <-> Str.nonEmpty (filters ≫= includeTags) = true)
  /\ (In "blocked_tags" (fst <$> ps) <-> Str.nonEmpty (filters ≫= blockedTags) = true)
  /\ (In "blocked_sources" (fst <$> ps) <-> Str.nonEmpty (filters ≫= excludeSources) = true).
Proof.
  intros ps. subst ps. split; [|split].
  - unfold rankingQuery, expectedParams.
    set (base := [("token", token cfg); ("page_size", Str.ofNat pageSize);
                  ("fresh_page_size", Str.ofNat (freshPageSize cfg))]).
    assert (Hbase : "token=" +:+ token cfg +:+ "&page_size=" +:+ Str.ofNat pageSize +:+
                    "&fresh_page_size=" +:+ Str.ofNat (freshPageSize cfg)
                    = renderParams base).
    { unfold renderParams, base. cbn [fmap list_fmap fst snd Str.join].
      now rewrite !append_assoc. }
    rewrite Hbase. clear Hbase.
    set (user := match userId with
                 | Some u => if Str.truthy u then [("user_id", u)] else []
                 | None => []
                 end).
    assert (Huser : match userId with
                    | Some u => if Str.truthy u
                                then renderParams base +:+ "&user_id=" +:+ u
                                else renderParams base
                    | None => renderParams base
                    end = renderParams (base ++ user)).
    { subst user. destruct userId as [u|]; [|now rewrite app_nil_r].
      apply (renderParams_step base (Str.truthy u) "user_id" u). discriminate. }
    rewrite Huser. clear Huser.
    unfold listParam.
    rewrite (renderParams_step (base ++ user) _ "allowed_tags") by (subst base; discriminate).
    rewrite (renderParams_step _ _ "blocked_tags") by (subst base; discriminate).
    rewrite (renderParams_step _ _ "blocked_sources") by (subst base; discriminate).
    now rewrite <- !app_assoc.
  - unfold expectedParams, listParam, parameterOrder.
    destruct userId as [u|]; [destruct (Str.truthy u)|];
      destruct (Str.nonEmpty (filters ≫= includeTags)),
               (Str.nonEmpty (filters ≫= blockedTags)),
               (Str.nonEmpty (filters ≫= excludeSources));
      cbn; repeat first [apply sublist_nil | apply sublist_skip | apply sublist_cons].
  - repeat split; rewrite in_keys_expected; intuition congruence.
Qed.







(** The path without a fetch: a timestamp within the threshold and a
    cache that covers the page. *)
Lemma serve_from_cache cfg con service now w pageSize offset userId feedId t :
  getValue (store w) (timeKey (getPersonalizedFeedKey userId feedId)) = Some t ->
  (now - t <= staleThreshold cfg)%Z ->
  offset + pageSize <= length (ranked (store w) (getPersonalizedFeedKey userId feedId)) ->
  generatePersonalizedFeed cfg con service now w pageSize offset userId feedId
  = (Some (take pageSize (drop offset
             (ranked (store w) (getPersonalizedFeedKey userId feedId)))), w).
Proof.
  intros Ht Hfresh Hcover. unfold generatePersonalizedFeed, shouldFetch.
  rewrite Ht.
  replace (_ <? _)%nat with false by (symmetry; apply Nat.ltb_ge; exact Hcover).
  replace (_ <? _)%Z with false by (symmetry; apply Z.ltb_ge; exact Hfresh).
  cbn [orb andb]. unfold getRange.
  now replace (offset + pageSize - offset) with pageSize by lia.
Qed.


(** C2: when the timestamp of the key is within the staleness
    threshold and the cached sequence covers the ranks
    [offset, offset + pageSize), the request returns exactly the cached
    ids of those ranks, sends no request to the ranking service, leaves
    the cache as it was, and gives the same result when the ranking
    service is down. *)
Theorem fresh_covering_cache_is_served
    (cfg : Config) (con : Database) (service : string -> option (list string))
    (now : Z) (w : World) (pageSize offset : nat) (userId feedId : option string) (t : Z) :
  let key := getPersonalizedFeedKey userId feedId in
  getValue (store w) (timeKey key) = Some t ->
  (now - t <= staleThreshold cfg)%Z ->
  offset + pageSize <= length (ranked (store w) key) ->
  let r := generatePersonalizedFeed cfg con service now w pageSize offset userId feedId in
  r.1 = Some (take pageSize (drop offset (ranked (store w) key)))
  /\ (forall i, i < pageSize ->
        take pageSize (drop offset (ranked (store w) key)) !! i
        = ranked (store w) key !! (offset + i))
  /\ calls r.2 = calls w
  /\ r.2 = w
  /\ r = generatePersonalizedFeed cfg con (fun _ => None) now w pageSize offset userId feedId.
Proof.
  intros key Ht Hfresh Hcover r. subst r key.
  rewrite !(serve_from_cache cfg con _ now w pageSize offset userId feedId t Ht Hfresh Hcover).
  repeat split.
  intros i Hi. now rewrite lookup_take_lt, lookup_drop.
Qed.



(** ** Scenarios *)

(** *** The tests of [__tests__/personalizedFeed.ts] *)

(** should fetch anonymous feed and serve consequent pages from cache *)
Example test_pages_from_cache :
  let r1 := generatePersonalizedFeed defaultConfig Fixture.emptyDb
              (Fixture.tinybird Fixture.anonymousUrl) Fixture.now Fixture.cold 2 0 None None in
  let r2 := generatePersonalizedFeed defaultConfig Fixture.emptyDb
              (Fixture.tinybird Fixture.anonymousUrl) (Fixture.now + 50) r1.2 2 2 None None in
  r1.1 = Some ["1"; "2"] /\ r2.1 = Some ["3"; "4"]
  /\ calls r2.2 = [Fixture.anonymousUrl].
Proof. vm_compute. repeat split. Qed.

(** should fetch anonymous feed and serve consequent calls from cache *)
Example test_calls_from_cache :
  let r1 := generatePersonalizedFeed defaultConfig Fixture.emptyDb
              (Fixture.tinybird Fixture.anonymousUrl) Fixture.now Fixture.cold 2 0 None None in
  let r2 := generatePersonalizedFeed defaultConfig Fixture.emptyDb
              (Fixture.tinybird Fixture.anonymousUrl) (Fixture.now + 50) r1.2 2 0 None None in
  r1.1 = Some ["1"; "2"] /\ r2.1 = Some ["1"; "2"]
  /\ calls r2.2 = [Fixture.anonymousUrl].
Proof. vm_compute. repeat split. Qed.

(** With the default fresh window of one rank the freshness test is
    the precise rule of section 4.3: fetch at offset 0 when the cache
    is older than the threshold, or when the page ends beyond the
    cached ranks, or when there is no timestamp. *)
Lemma shouldFetch_precise_rule now st key pageSize offset :
  shouldFetch defaultConfig now st key pageSize offset
  = match getValue st (timeKey key) with
    | None => true
    | Some t =>
        (length (ranked st key) <? offset + pageSize)%nat
        || ((30 * 60 * 1000 <? now - t)%Z && (offset =? 0)%nat)
    end.
Proof.
  unfold shouldFetch. destruct (getValue st (timeKey key)); [|reflexivity].
  now destruct offset.
Qed.

(** should fetch anonymous feed even when cache is old *)
Example test_old_cache :
  let r := generatePersonalizedFeed defaultConfig Fixture.emptyDb
             (Fixture.tinybird Fixture.anonymousUrl) Fixture.now
             (Fixture.seeded Fixture.anHourAgo) 2 0 None None in
  r.1 = Some ["1"; "2"] /\ calls r.2 = [Fixture.anonymousUrl].
Proof. vm_compute. repeat split. Qed.

(** Reading the page from the cache after the fetch gives the old ids
    instead, against the test above. *)
Example old_cache_page_read_from_cache :
  (generatePersonalizedFeedFromCache defaultConfig Fixture.emptyDb
     (Fixture.tinybird Fixture.anonymousUrl) Fixture.now
     (Fixture.seeded Fixture.anHourAgo) 2 0 None None).1 = Some ["7"; "8"].
Proof. vm_compute. reflexivity. Qed.

(** Writing the cache anew on a fetch and reading the page from it
    gives what the five tests expect as well. *)
Example tests_with_replaced_cache :
  let g := generatePersonalizedFeedReplacing defaultConfig in
  let tinybird := Fixture.tinybird Fixture.anonymousUrl in
  let r1 := g Fixture.emptyDb tinybird Fixture.now Fixture.cold 2 0 None None in
  let r2 := g Fixture.emptyDb tinybird (Fixture.now + 50)%Z r1.2 2 2 None None in
  let r3 := g Fixture.emptyDb tinybird (Fixture.now + 50)%Z r1.2 2 0 None None in
  let old := g Fixture.emptyDb tinybird Fixture.now (Fixture.seeded Fixture.anHourAgo)
               2 0 None None in
  let fresh := g Fixture.emptyDb tinybird Fixture.now (Fixture.seeded Fixture.now)
                 2 0 None None in
  let personal := g Fixture.feedDb (Fixture.tinybird Fixture.personalUrl) Fixture.now
                    Fixture.cold 2 0 (Some "u1") (Some "1") in
  (r1.1 = Some ["1"; "2"] /\ r2.1 = Some ["3"; "4"] /\ calls r2.2 = [Fixture.anonymousUrl])
  /\ (r3.1 = Some ["1"; "2"] /\ calls r3.2 = [Fixture.anonymousUrl])
  /\ (old.1 = Some ["1"; "2"] /\ calls old.2 = [Fixture.anonymousUrl])
  /\ (fresh.1 = Some ["7"; "8"] /\ calls fresh.2 = [])
  /\ (personal.1 = Some ["1"; "2"] /\ calls personal.2 = [Fixture.personalUrl]).
Proof. vm_compute. repeat split. Qed.

(** The two readings that agree with the tests leave different caches
    behind once the old cache is re-validated: one keeps 7 and 8 at
    ranks 0 and 1 and writes the fetched ids after them, the other
    holds the fetched ids only. The tests look at the returned page,
    which is the same. *)
Example old_cache_after_revalidation :
  let appended := generatePersonalizedFeed defaultConfig Fixture.emptyDb
                    (Fixture.tinybird Fixture.anonymousUrl) Fixture.now
                    (Fixture.seeded Fixture.anHourAgo) 2 0 None None in
  let replaced := generatePersonalizedFeedReplacing defaultConfig Fixture.emptyDb
                    (Fixture.tinybird Fixture.anonymousUrl) Fixture.now
                    (Fixture.seeded Fixture.anHourAgo) 2 0 None None in
  appended.1 = replaced.1
  /\ ranked (store appended.2) "feeds:anonymous" = ["7"; "8"; "1"; "2"; "3"; "4"; "5"; "6"]
  /\ ranked (store replaced.2) "feeds:anonymous" = ["1"; "2"; "3"; "4"; "5"; "6"].
Proof. vm_compute. repeat split. Qed.

(** should not fetch anonymous feed even when cache is still fresh *)
Example test_fresh_cache :
  let r := generatePersonalizedFeed defaultConfig Fixture.emptyDb
             (Fixture.tinybird Fixture.anonymousUrl) Fixture.now
             (Fixture.seeded Fixture.now) 2 0 None None in
  r.1 = Some ["7"; "8"] /\ calls r.2 = [].
Proof. vm_compute. repeat split. Qed.

(** should set the correct query parameters *)
Example test_query_parameters :
  let r := generatePersonalizedFeed defaultConfig Fixture.feedDb
             (Fixture.tinybird Fixture.personalUrl) Fixture.now Fixture.cold 2 0
             (Some "u1") (Some "1") in
  r.1 = Some ["1"; "2"] /\ calls r.2 = [Fixture.personalUrl].
Proof. vm_compute. repeat split. Qed.

Example deleteKeysByPattern_feeds :
  deleteKeysByPrefix "feeds:" (store (Fixture.seeded Fixture.now)) = store Fixture.cold.
Proof. vm_compute. reflexivity. Qed.

(** *** The fragments as text *)

Example whereTags_text :
  render (whereTags ["a"; "b"] Fixture.feed "p" "tags").1
  = "EXISTS(SELECT 1 FROM PostKeyword pk WHERE pk.keyword IN (:...tags) AND pk.postId = p.id)".
Proof. reflexivity. Qed.

Example whereNotTags_text :
  render (whereNotTags ["a"; "b"] Fixture.feed "p").1
  = "NOT EXISTS(SELECT 1 FROM PostKeyword pk WHERE pk.keyword IN (:...blockedTags) AND pk.postId = p.id)".
Proof. reflexivity. Qed.

Example whereTagsInFeed_text :
  render (whereTagsInFeed "f1" Fixture.feed "p").1
  = "(NOT EXISTS(SELECT feed.tag FROM FeedTag feed WHERE feed.feedId = :feedId) OR EXISTS(SELECT 1 FROM PostKeyword pk WHERE pk.keyword IN (SELECT feed.tag FROM FeedTag feed WHERE feed.feedId = :feedId) AND pk.postId = p.id))".
Proof. reflexivity. Qed.

Example fixedIds_text :
  render <$> wheres (fixedIdsFeedBuilder Fixture.viewer ["a"; "b"] Fixture.feed "p")
  = ["p.id IN ('a','b')"].
Proof. reflexivity. Qed.

Example feedToFilters_feed1 :
  feedToFilters Fixture.feedDb "1"
  = {| includeSources := None; excludeSources := Some ["a"; "b"];
       includeTags := Some ["javascript"; "golang"];
       blockedTags := Some ["python"; "java"] |}.
Proof. reflexivity. Qed.

(** *** What the database accepts *)

(** The fragments of [feedGenerator.ts] on the feed of the fixtures
    pass the check of the database. *)
Example fragments_accepted :
  let ok (r : Cond * SelectQueryBuilder) := accepted (parameters r.2) [("p", Post)] r.1 in
  let okAll (b : SelectQueryBuilder) (sc : Scope) :=
    forallb (accepted (parameters b) sc) (wheres b ++ (jOn <$> joins b)) in
  ok (whereTags ["a"; "b"] Fixture.feed "p" "tags") = true
  /\ ok (whereNotTags ["a"; "b"] Fixture.feed "p") = true
  /\ ok (whereKeyword "javascript" Fixture.feed "p") = true
  /\ ok (whereTagsInFeed "f1" Fixture.feed "p") = true
  /\ ok (whereSourcesInFeed "f1" Fixture.feed "p") = true
  /\ ok (whereUnread (Some "u1") Fixture.feed "p") = true
  /\ okAll (applyFeedWhere Fixture.viewer Fixture.feed "p" true true)
           [("hidden", HiddenPost); ("p", Post)] = true
  /\ okAll (anonymousFeedBuilder Fixture.viewer (Some Fixture.bothTagFilters) Fixture.feed "p")
           [("p", Post)] = true
  /\ okAll (sourceFeedBuilder Fixture.viewer "a" Fixture.feed "p") [("p", Post)] = true
  /\ okAll (fixedIdsFeedBuilder Fixture.viewer ["a"; "b"] Fixture.feed "p") [("p", Post)] = true
  /\ okAll (fixedIdsFeedBuilder Fixture.viewer [] Fixture.feed "p") [("p", Post)] = true.
Proof. vm_compute. repeat split. Qed.

(** An id that holds a single quote leaves a text that is no list of
    literals, which the database refuses. *)
Example fixedIds_unbalanced_quote_refused :
  accepted ∅ [("p", Post)] (CInText (col "p" "id") (idsStr ["o'neil"])) = false.
Proof. vm_compute. reflexivity. Qed.

(** *** Instances of the theorems *)

(** Post p1 and feed f1, whose only tag is javascript. *)
Lemma whereTagsInFeed_open_policy_witness :
  "p" <> "pk"
  /\ (holdsFor Fixture.blogDb (whereTagsInFeed "f1" Fixture.feed "p").2 "p" Fixture.p1
               (whereTagsInFeed "f1" Fixture.feed "p").1 = true
      <-> hasKeywordIn Fixture.blogDb Fixture.p1 (tagsOfFeed Fixture.blogDb "f1")
          \/ tagsOfFeed Fixture.blogDb "f1" = []).
Proof.
  split; [discriminate|].
  apply (whereTagsInFeed_open_policy Fixture.blogDb "f1" Fixture.feed "p" Fixture.p1).
  discriminate.
Defined.

(** Of the five posts only p1 is returned to viewer u1. *)
Lemma applyFeedWhere_exclusion_witness :
  execute Fixture.blogDb (applyFeedWhere Fixture.viewer Fixture.feed "p" true true)
  = [Fixture.p1]
  /\ (exists s, In s (sources Fixture.blogDb)
                /\ s_id s = p_sourceId Fixture.p1 /\ s_active s = true)
  /\ p_deleted Fixture.p1 = false
  /\ (true = true -> p_banned Fixture.p1 = false)
  /\ (loggedIn Fixture.viewer = true -> true = true ->
      ~ exists h, In h (hiddenPosts Fixture.blogDb) /\ h_postId h = p_id Fixture.p1
                  /\ Some (h_userId h) = userId Fixture.viewer).
Proof.
  split; [vm_compute; reflexivity|].
  apply (applyFeedWhere_exclusion Fixture.viewer Fixture.feed "p" true true
           Fixture.blogDb Fixture.p1).
  - reflexivity.
  - discriminate.
  - discriminate.
  - constructor.
  - vm_compute. left. reflexivity.
Defined.

(** No post of the five has the sentinel as its id: the feed is empty. *)
Lemma fixedIdsFeedBuilder_empty_ids_witness :
  (forall p, In p (posts Fixture.blogDb) -> p_id p <> "nosuchid")
  /\ execute Fixture.blogDb (fixedIdsFeedBuilder Fixture.viewer [] Fixture.feed "p") = [].
Proof.
  assert (Hno : forall p, In p (posts Fixture.blogDb) -> p_id p <> "nosuchid").
  { intros p Hp. cbn in Hp.
    destruct Hp as [<-|[<-|[<-|[<-|[<-|[]]]]]]; discriminate. }
  split; [exact Hno|].
  apply (fixedIdsFeedBuilder_empty_ids Fixture.viewer Fixture.feed "p" Fixture.blogDb).
  - reflexivity.
  - constructor.
  - exact Hno.
Defined.

(** Two quote-free ids. *)
Lemma fixedIdsFeedBuilder_interpolates_witness :
  Forall (fun id => quoteFree id = true) ["a"; "b"]
  /\ wheres (fixedIdsFeedBuilder Fixture.viewer ["a"; "b"] Fixture.feed "p")
     = [CInText (col "p" "id") "'a','b'"]
  /\ literals "'a','b'" = Some ["a"; "b"].
Proof.
  assert (Hq : Forall (fun id => quoteFree id = true) ["a"; "b"]).
  { repeat constructor. }
  split; [exact Hq|].
  destruct (fixedIdsFeedBuilder_interpolates Fixture.viewer ["a"; "b"] Fixture.feed "p")
    as [Hw [_ [_ Hl]]].
  split; [exact Hw | exact (Hl Hq)].
Defined.

(** The cache seeded with 7 and 8 a moment ago. *)
Lemma fresh_covering_cache_is_served_witness :
  let r := generatePersonalizedFeed defaultConfig Fixture.emptyDb
             (Fixture.tinybird Fixture.anonymousUrl) Fixture.now
             (Fixture.seeded Fixture.now) 2 0 None None in
  r.1 = Some ["7"; "8"] /\ calls r.2 = [].
Proof.
  destruct (fresh_covering_cache_is_served defaultConfig Fixture.emptyDb
              (Fixture.tinybird Fixture.anonymousUrl) Fixture.now
              (Fixture.seeded Fixture.now) 2 0 None None Fixture.now)
    as [Hpage [_ [Hcalls _]]].
  - reflexivity.
  - vm_compute. discriminate.
  - vm_compute. lia.
  - split; [exact Hpage | exact Hcalls].
Defined.

(** The javascript tag and post p1, which carries it. *)
Lemma whereTags_whereNotTags_complement_witness :
  let t := whereTags ["javascript"] Fixture.feed "p" "tags" in
  let n := whereNotTags ["javascript"] Fixture.feed "p" in
  ["javascript"] <> [] /\ "p" <> "pk"
  /\ accepted (parameters t.2) [("p", Post)] t.1 = true
  /\ accepted (parameters n.2) [("p", Post)] n.1 = true
  /\ xorb (holdsWhenRun Fixture.blogDb t.2 "p" Fixture.p1 t.1)
          (holdsWhenRun Fixture.blogDb n.2 "p" Fixture.p1 n.1) = true.
Proof.
  assert (Htags : ["javascript"] <> @nil string) by discriminate.
  assert (Halias : "p" <> "pk") by discriminate.
  split; [exact Htags|]. split; [exact Halias|].
  destruct (whereTags_whereNotTags_complement Fixture.blogDb ["javascript"] Fixture.feed
              "p" Fixture.p1 Htags Halias) as [Hone [Ht [Hn _]]].
  split; [exact Ht|]. split; [exact Hn | exact Hone].
Defined.


(** *** Where the claims fail *)

(** C7 as stated fails: with the empty tag list the spread parameter
    is bound to an empty array, the fragments read [IN ()] once it is
    expanded and the database refuses them, so neither of the two holds
    for a post; with the alias [pk] the column [pk.id] is looked up in
    [PostKeyword], which has none, and again neither holds. *)
Lemma whereTags_refused_for_no_tags :
  (parameters (whereTags [] Fixture.feed "p" "tags").2 !! "tags" = Some (PList [])
   /\ render (whereTags [] Fixture.feed "p" "tags").1
      = "EXISTS(SELECT 1 FROM PostKeyword pk WHERE pk.keyword IN (:...tags) AND pk.postId = p.id)"
   /\ holdsWhenRun Fixture.blogDb (whereTags [] Fixture.feed "p" "tags").2 "p" Fixture.p1
        (whereTags [] Fixture.feed "p" "tags").1 = false
   /\ holdsWhenRun Fixture.blogDb (whereNotTags [] Fixture.feed "p").2 "p" Fixture.p1
        (whereNotTags [] Fixture.feed "p").1 = false)
  /\ (render (whereTags ["javascript"] (QB.createQueryBuilder Post "pk") "pk" "tags").1
      = "EXISTS(SELECT 1 FROM PostKeyword pk WHERE pk.keyword IN (:...tags) AND pk.postId = pk.id)"
      /\ holdsWhenRun Fixture.blogDb
           (whereTags ["javascript"] (QB.createQueryBuilder Post "pk") "pk" "tags").2
           "pk" Fixture.p1
           (whereTags ["javascript"] (QB.createQueryBuilder Post "pk") "pk" "tags").1 = false
      /\ holdsWhenRun Fixture.blogDb
           (whereNotTags ["javascript"] (QB.createQueryBuilder Post "pk") "pk").2
           "pk" Fixture.p1
           (whereNotTags ["javascript"] (QB.createQueryBuilder Post "pk") "pk").1 = false).
Proof. vm_compute. repeat split. Qed.

(** C5 as stated fails: an id that is no identifier is not rejected; it
    is interpolated as it is into the IN list and the ORDER BY
    expression, and the feed returns a post whose id was not asked for. *)
Lemma fixedIdsFeedBuilder_takes_any_id :
  quoteFree Fixture.craftedId = false
  /\ ~ In "p1" [Fixture.craftedId]
  /\ wheres (fixedIdsFeedBuilder Fixture.viewer [Fixture.craftedId] Fixture.feed "p")
     = [CInText (col "p" "id") "'x','p1'"]
  /\ orderBys (fixedIdsFeedBuilder Fixture.viewer [Fixture.craftedId] Fixture.feed "p")
     = Some "array_position(array['x','p1'], p.id)"
  /\ execute Fixture.blogDb
       (fixedIdsFeedBuilder Fixture.viewer [Fixture.craftedId] Fixture.feed "p")
     = [Fixture.p1].
Proof.
  split; [reflexivity|]. split.
  - intros [H|[]]. discriminate H.
  - vm_compute. repeat split.
Qed.

(** C6 as stated fails: with both tag lists given the blocked-tag
    fragment is added after the include-tag fragment, and a post that
    carries an included and a blocked keyword is left out. *)
Lemma anonymousFeedBuilder_applies_both_tag_filters :
  Str.nonEmpty (includeTags Fixture.bothTagFilters) = true
  /\ wheres (anonymousFeedBuilder Fixture.viewer (Some Fixture.bothTagFilters) Fixture.feed "p")
     = [tagFragment "p" "tags"; CNot (tagFragment "p" "blockedTags")]
  /\ execute Fixture.blogDb
       (anonymousFeedBuilder Fixture.viewer (Some Fixture.bothTagFilters) Fixture.feed "p")
     = []
  /\ execute Fixture.blogDb
       (anonymousFeedBuilder Fixture.viewer (Some Fixture.includeOnlyFilters) Fixture.feed "p")
     = [Fixture.p1].
Proof. vm_compute. repeat split. Qed.

(** C10 as stated fails: the sentinel matches a post whose id is
    nosuchid, and the feed with no ids returns that post. *)
Lemma fixedIdsFeedBuilder_sentinel_matches :
  execute Fixture.sentinelDb (fixedIdsFeedBuilder Fixture.viewer [] Fixture.feed "p")
  = [Fixture.mkPost "nosuchid" "a" false false].
Proof. vm_compute. reflexivity. Qed.

(** * Further properties of feedGenerator.ts *)

(** ** Evaluation under any parameters and any row in scope *)

Lemma nonempty_filter {A B} (g : A -> bool) (f : A -> B) (l : list A) :
  match f <$> List.filter g l with [] => false | _ => true end = existsb g l.
Proof.
  induction l as [|a l IH]; [reflexivity|].
  cbn [List.filter existsb]. destruct (g a); [reflexivity | exact IH].
Qed.

Lemma existsb_fmap {A B} (g : B -> bool) (f : A -> B) (l : list A) :
  existsb g (f <$> l) = existsb (fun a => g (f a)) l.
Proof. induction l as [|a l IH]; [reflexivity|]. cbn. now rewrite <- IH. Qed.

Lemma existsb_true_iff {A} (g : A -> bool) (l : list A) :
  existsb g l = true <-> exists a, In a l /\ g a = true.
Proof. apply existsb_exists. Qed.

Lemma holds_some (b : bool) : Tri.holds (Some b) = b.
Proof. now destruct b. Qed.

Lemma holds_and3 (a b : option bool) :
  Tri.holds (Tri.and3 a b) = Tri.holds a && Tri.holds b.
Proof. now destruct a as [[|]|], b as [[|]|]. Qed.

Lemma eq3_str (x y : string) : eq3 (VStr x) (VStr y) = Some (String.eqb x y).
Proof. reflexivity. Qed.

(** A column of the post table read below a sub-query row. *)
Lemma colValue_post a r env alias c q post :
  a <> alias ->
  binding alias env = Some (postRow post) ->
  colValue ((a, r) :: env) {| cAlias := alias; cName := c; cQuote := q |}
  = field c (postRow post).
Proof.
  intros Hne Hb. rewrite colValue_skip by (cbn; exact Hne).
  now rewrite (colValue_bound env {| cAlias := alias; cName := c; cQuote := q |} _ Hb).
Qed.

Lemma keywordRowMatches_bound tags alias env post r :
  alias <> "pk" ->
  binding alias env = Some (postRow post) ->
  keywordRowMatches tags alias env r = true
  <-> pk_postId r = p_id post /\ In (pk_keyword r) tags.
Proof.
  intros Hne Hb. unfold keywordRowMatches, col.
  rewrite (colValue_post "pk" _ env alias "id" Bare post) by (auto; congruence).
  change (field "id" (postRow post)) with (VStr (p_id post)).
  rewrite eq3_str, holds_some, andb_true_iff, existsb_exists, String.eqb_eq.
  split.
  - intros [[x [Hin Hx]] Hp]. apply String.eqb_eq in Hx. now subst.
  - intros [Hp Hin]. split; [|exact Hp].
    exists (pk_keyword r). split; [exact Hin | apply String.eqb_refl].
Qed.

Lemma tagFragment_eval db ps env alias v tags :
  ps !! v = Some (PList tags) ->
  evalCond db ps env (tagFragment alias v)
  = Some (existsb (keywordRowMatches tags alias env) (postKeywords db)).
Proof.
  intros Hp. unfold tagFragment. cbn [evalCond evalQuery table].
  rewrite exists_rows. f_equal. apply existsb_pointwise. intros r.
  unfold keywordRowMatches. rewrite Hp.
  change (colValue (("pk", postKeywordRow r) :: env) (col "pk" "keyword"))
    with (VStr (pk_keyword r)).
  change (colValue (("pk", postKeywordRow r) :: env) (col "pk" "postId"))
    with (VStr (pk_postId r)).
  rewrite in3_str, holds_and3, holds_some. reflexivity.
Qed.

Lemma tagFragment_holds db ps env alias v tags post :
  alias <> "pk" ->
  binding alias env = Some (postRow post) ->
  ps !! v = Some (PList tags) ->
  Tri.holds (evalCond db ps env (tagFragment alias v)) = true
  <-> hasKeywordIn db post tags.
Proof.
  intros Hne Hb Hp. rewrite (tagFragment_eval db ps env alias v tags Hp), holds_some.
  rewrite existsb_exists. unfold hasKeywordIn.
  split; intros [r [Hin H]]; exists r; (split; [exact Hin|]);
    now apply (keywordRowMatches_bound tags alias env post r Hne Hb).
Qed.

(** ** feedToFilters *)

Lemma feedToFilters_fold (rows : list FeedTagRow) (acc : list string * list string) :
  foldl (fun (acc : list string * list string) value =>
           if ft_blocked value
           then (acc.1, acc.2 ++ [ft_tag value])
           else (acc.1 ++ [ft_tag value], acc.2))
        acc rows
  = (acc.1 ++ (ft_tag <$> List.filter (fun r => negb (ft_blocked r)) rows),
     acc.2 ++ (ft_tag <$> List.filter ft_blocked rows)).
Proof.
  revert acc. induction rows as [|r rows IH]; intros [a b].
  - cbn. now rewrite !app_nil_r.
  - cbn [foldl List.filter]. rewrite IH. destruct (ft_blocked r); cbn [negb fst snd].
    + rewrite fmap_cons, <- app_assoc. reflexivity.
    + rewrite fmap_cons, <- app_assoc. reflexivity.
Qed.

(** X1: [feedToFilters] splits the tag rows of the feed by their
    [blocked] flag, keeping the order of the rows: the tags that are
    not blocked become [includeTags], the blocked ones [blockedTags];
    the source rows of the feed become [excludeSources]; no
    [includeSources] is ever set. Rows of other feeds take no part, and
    every tag of the feed lands in one of the two lists. *)
Theorem feedToFilters_partition (con : Database) (feedId : string) :
  let ofFeed := List.filter (fun r => String.eqb (ft_feedId r) feedId) (feedTags con) in
  let f := feedToFilters con feedId in
  includeTags f = Some (ft_tag <$> List.filter (fun r => negb (ft_blocked r)) ofFeed)
  /\ blockedTags f = Some (ft_tag <$> List.filter ft_blocked ofFeed)
  /\ excludeSources f = Some (sourcesOfFeed con feedId)
  /\ includeSources f = None
  /\ (forall t, In t (tagsOfFeed con feedId)
              <-> In t (Str.arr (includeTags f)) \/ In t (Str.arr (blockedTags f))).
Proof.
  intros ofFeed f. subst f. unfold feedToFilters. fold ofFeed.
  rewrite feedToFilters_fold. cbn [fst snd app includeTags blockedTags excludeSources
    includeSources Str.arr default].
  repeat split.
  - unfold tagsOfFeed. fold ofFeed. intros Hin.
    apply list_elem_of_In, list_elem_of_fmap in Hin as [r [-> Hr]].
    apply list_elem_of_In in Hr.
    destruct (ft_blocked r) eqn:Eb.
    + right. apply list_elem_of_In, list_elem_of_fmap_2, list_elem_of_In.
      apply filter_In. split; [exact Hr | exact Eb].
    + left. apply list_elem_of_In, list_elem_of_fmap_2, list_elem_of_In.
      apply filter_In. split; [exact Hr | now rewrite Eb].
  - unfold tagsOfFeed. fold ofFeed.
    intros [Hin|Hin];
      apply list_elem_of_In, list_elem_of_fmap in Hin as [r [-> Hr]];
      apply list_elem_of_In, filter_In in Hr as [Hr _];
      apply list_elem_of_In, list_elem_of_fmap_2, list_elem_of_In, Hr.
Qed.

(** ** whereKeyword *)

Lemma whereKeyword_eval db keyword builder alias env :
  evalCond db (parameters (whereKeyword keyword builder alias).2) env
           (whereKeyword keyword builder alias).1
  = Some (existsb (keywordRowMatches [keyword] alias env) (postKeywords db)).
Proof.
  change (whereKeyword keyword builder alias).1
    with (CExists (Select SelOne PostKeyword "pk"
            (Some (CAnd (CEqParam (col "pk" "keyword") "keyword")
                        (CEqCol (colQ "pk" "postId") (col alias "id")))))).
  change (parameters (whereKeyword keyword builder alias).2)
    with (∅ ∪ ({["keyword" := PStr keyword]} ∪ ∅) ∪ parameters builder).
  cbn [evalCond evalQuery table].
  rewrite exists_rows. f_equal. apply existsb_pointwise. intros r.
  unfold keywordRowMatches. rewrite sub_params_lookup.
  change (colValue (("pk", postKeywordRow r) :: env) (col "pk" "keyword"))
    with (VStr (pk_keyword r)).
  change (colValue (("pk", postKeywordRow r) :: env) (colQ "pk" "postId"))
    with (VStr (pk_postId r)).
  rewrite holds_and3, eq3_str, holds_some. cbn [existsb]. now rewrite orb_false_r.
Qed.

(** X2: the fragment of [whereKeyword] is true for a post exactly when
    a [PostKeyword] row joins the post to the keyword, and it has the
    truth value of [whereTags] over the one-element list of that
    keyword, the fragment [tagFeedBuilder] uses. The alias of the post
    table is not the alias [pk] of the sub-query. *)
Theorem whereKeyword_meaning
    (db : Database) (keyword : string) (builder : SelectQueryBuilder)
    (alias : string) (post : PostRow) :
  alias <> "pk" ->
  let k := whereKeyword keyword builder alias in
  let t := whereTags [keyword] builder alias "tags" in
  (holdsFor db k.2 alias post k.1 = true
   <-> exists r, In r (postKeywords db) /\ pk_postId r = p_id post /\ pk_keyword r = keyword)
  /\ holdsFor db k.2 alias post k.1 = holdsFor db t.2 alias post t.1
  /\ joins k.2 = joins builder /\ wheres k.2 = wheres builder.
Proof.
  intros Hne k t. subst k t. unfold holdsFor.
  rewrite whereKeyword_eval, whereTags_eval, holds_some.
  split; [|repeat split].
  rewrite existsb_exists.
  assert (Hb : binding alias [(alias, postRow post)] = Some (postRow post)).
  { cbn. now rewrite String.eqb_refl. }
  split.
  - intros [r [Hin H]]. exists r. split; [exact Hin|].
    apply (keywordRowMatches_bound _ alias _ post r Hne Hb) in H as [Hp [Hk|[]]].
    split; [exact Hp | now symmetry].
  - intros [r [Hin [Hp Hk]]]. exists r. split; [exact Hin|].
    apply (keywordRowMatches_bound _ alias _ post r Hne Hb).
    split; [exact Hp | left; now symmetry].
Qed.

(** ** whereSourcesInFeed *)

Lemma feedSourceQuery_eval db ps env feedId :
  ps !! "feedId" = Some (PStr feedId) ->
  evalQuery db ps env
    (Select (SelCol (col "feed" "sourceId")) FeedSource "feed"
            (Some (CEqParam (col "feed" "feedId") "feedId")))
  = VStr <$> sourcesOfFeed db feedId.
Proof.
  intros Hp. unfold sourcesOfFeed. cbn [evalQuery evalCond table]. rewrite Hp.
  induction (feedSources db) as [|t l IH]; [reflexivity|].
  rewrite fmap_cons. cbn [List.filter].
  change (colValue (("feed", feedSourceRow t) :: env) (col "feed" "feedId"))
    with (VStr (fs_feedId t)).
  cbn [eq3 Tri.holds].
  destruct (String.eqb (fs_feedId t) feedId).
  - rewrite !fmap_cons. f_equal. exact IH.
  - exact IH.
Qed.

Lemma existsb_eqb_In (x : string) (l : list string) :
  existsb (String.eqb x) l = true <-> In x l.
Proof.
  rewrite existsb_exists. split.
  - intros [y [Hin Hy]]. apply String.eqb_eq in Hy. now subst.
  - intros Hin. exists x. split; [exact Hin | apply String.eqb_refl].
Qed.

(** X3: the fragment of [whereSourcesInFeed] is true for a post
    exactly when the source of the post is not among the sources
    configured for the feed, which are the [excludeSources] that
    [feedToFilters] gives for the feed; for a feed without source rows
    it is true for every post. *)
Theorem whereSourcesInFeed_meaning
    (db : Database) (feedId : string) (builder : SelectQueryBuilder)
    (alias : string) (post : PostRow) :
  let s := whereSourcesInFeed feedId builder alias in
  (holdsFor db s.2 alias post s.1 = true
   <-> ~ In (p_sourceId post) (Str.arr (excludeSources (feedToFilters db feedId))))
  /\ (sourcesOfFeed db feedId = [] -> holdsFor db s.2 alias post s.1 = true)
  /\ joins s.2 = joins builder /\ wheres s.2 = wheres builder.
Proof.
  intros s. subst s. unfold holdsFor.
  assert (Hp : parameters (whereSourcesInFeed feedId builder alias).2 !! "feedId"
               = Some (PStr feedId)).
  { unfold whereSourcesInFeed.
    cbn [snd QB.adopt QB.setParameters QB.where_ QB.from QB.select QB.subQuery parameters].
    rewrite (right_id_L ∅ (∪)). apply lookup_union_Some_l, lookup_singleton_eq. }
  assert (He : evalCond db (parameters (whereSourcesInFeed feedId builder alias).2)
                 [(alias, postRow post)] (whereSourcesInFeed feedId builder alias).1
               = Some (negb (existsb (String.eqb (p_sourceId post)) (sourcesOfFeed db feedId)))).
  { set (ps := parameters _) in *.
    change (whereSourcesInFeed feedId builder alias).1
      with (CNotInQuery (col alias "sourceId")
              (Select (SelCol (col "feed" "sourceId")) FeedSource "feed"
                      (Some (CEqParam (col "feed" "feedId") "feedId")))).
    cbn [evalCond].
    rewrite (feedSourceQuery_eval db ps _ feedId Hp).
    rewrite (colValue_bound [(alias, postRow post)] (col alias "sourceId") (postRow post)).
    - change (field (cName (col alias "sourceId")) (postRow post))
        with (VStr (p_sourceId post)).
      now rewrite in3_str.
    - cbn. now rewrite String.eqb_refl. }
  rewrite He, holds_some.
  change (Str.arr (excludeSources (feedToFilters db feedId))) with (sourcesOfFeed db feedId).
  split; [|split; [|split; reflexivity]].
  - rewrite negb_true_iff, <- existsb_eqb_In.
    destruct (existsb _ _); split; congruence.
  - intros ->. reflexivity.
Qed.

(** ** selectRead and whereUnread *)

Lemma unreadFragment_eval db ps env alias u post :
  alias <> "view" ->
  binding alias env = Some (postRow post) ->
  ps !! "userId" = Some (PStr u) ->
  evalCond db ps env (unreadFragment alias)
  = Some (negb (existsb (fun v => String.eqb (v_userId v) u
                                  && String.eqb (v_postId v) (p_id post)) (views db))).
Proof.
  intros Hne Hb Hp. unfold unreadFragment. cbn [evalCond evalQuery table Tri.not3 fmap option_fmap option_map].
  rewrite exists_rows. f_equal. f_equal. apply existsb_pointwise. intros v.
  rewrite Hp.
  change (colValue (("view", viewRow v) :: env) (col "view" "userId")) with (VStr (v_userId v)).
  change (colValue (("view", viewRow v) :: env) (col "view" "postId")) with (VStr (v_postId v)).
  unfold col. rewrite (colValue_post "view" _ env alias "id" Bare post) by (auto; congruence).
  change (field "id" (postRow post)) with (VStr (p_id post)).
  now rewrite holds_and3, !eq3_str, !holds_some.
Qed.

Lemma unreadFragment_holds db ps env alias u post :
  alias <> "view" ->
  binding alias env = Some (postRow post) ->
  ps !! "userId" = Some (PStr u) ->
  Tri.holds (evalCond db ps env (unreadFragment alias)) = true <-> ~ viewed db u post.
Proof.
  intros Hne Hb Hp. rewrite (unreadFragment_eval db ps env alias u post Hne Hb Hp), holds_some.
  rewrite negb_true_iff. unfold viewed. split.
  - intros Hex [v [Hin [Hu Hv]]].
    assert (existsb (fun v => String.eqb (v_userId v) u
                              && String.eqb (v_postId v) (p_id post)) (views db) = true).
    { apply existsb_exists. exists v. split; [exact Hin|].
      now rewrite Hu, Hv, !String.eqb_refl. }
    congruence.
  - intros Hno. destruct (existsb _ (views db)) eqn:E; [|reflexivity].
    exfalso. apply Hno. apply existsb_exists in E as [v [Hin H]].
    apply andb_true_iff in H as [Hu Hv].
    apply String.eqb_eq in Hu, Hv. exists v. auto.
Qed.

(** X4: the fragment of [whereUnread] is true for a post exactly when
    the viewer has no [View] row for it. The select, from and where
    calls of [selectRead] land on the sub-query builder: the builder of
    the feed keeps its selection, target, joins and conditions and only
    receives the [userId] parameter. The alias of the post table is not
    the alias [view] of the sub-query. *)
Theorem whereUnread_meaning
    (db : Database) (user : string) (builder : SelectQueryBuilder)
    (alias : string) (post : PostRow) :
  alias <> "view" ->
  let w := whereUnread (Some user) builder alias in
  (holdsFor db w.2 alias post w.1 = true <-> ~ viewed db user post)
  /\ w.1 = unreadFragment alias
  /\ selection w.2 = selection builder /\ target w.2 = target builder
  /\ joins w.2 = joins builder /\ wheres w.2 = wheres builder
  /\ parameters w.2 !! "userId" = Some (PStr user).
Proof.
  intros Hne w. subst w.
  assert (Hp : parameters (whereUnread (Some user) builder alias).2 !! "userId"
               = Some (PStr user)).
  { unfold whereUnread, selectRead.
    cbn [snd QB.adopt QB.setParameters QB.andWhere QB.where_ QB.from QB.select QB.subQuery
         parameters optParam].
    apply sub_params_lookup. }
  split; [|repeat split; exact Hp].
  unfold holdsFor.
  change (whereUnread (Some user) builder alias).1 with (unreadFragment alias).
  apply unreadFragment_holds; [exact Hne | | exact Hp].
  cbn. now rewrite String.eqb_refl.
Qed.

(** ** What a feed query returns *)

Lemma execute_member db b alias post :
  target b = Some (Post, alias) ->
  Forall (fun j => jAlias j <> alias) (joins b) ->
  In post (execute db b) ->
  In post (posts db)
  /\ exists env, binding alias env = Some (postRow post)
                 /\ passes db (parameters b) (wheres b) env = true.
Proof.
  intros Ht Hjs Hin. unfold execute in Hin. rewrite Ht in Hin.
  apply list_elem_of_In, list_elem_of_bind in Hin as [p [Hin Hp]].
  apply list_elem_of_bind in Hin as [env [Hin Henv]].
  destruct (passes db _ _ env) eqn:Hpass; [|now apply elem_of_nil in Hin].
  apply list_elem_of_singleton in Hin. subst p.
  split; [now apply list_elem_of_In|].
  exists env. split; [|exact Hpass].
  apply list_elem_of_In, (joined_binding db _ alias _ Hjs) in Henv as [e0 [[<-|[]] Hb]].
  rewrite Hb. cbn [binding]. now rewrite String.eqb_refl.
Qed.

Lemma execute_join_free db b alias :
  target b = Some (Post, alias) ->
  joins b = [] ->
  execute db b
  = List.filter (fun p => passes db (parameters b) (wheres b) [(alias, postRow p)]) (posts db).
Proof.
  intros Ht Hj. unfold execute, joined. rewrite Ht, Hj. cbn [foldl].
  induction (posts db) as [|p l IH]; [reflexivity|].
  cbn [List.filter]. rewrite <- IH.
  change ((p :: l) ≫= ?f) with (f p ++ (l ≫= f)).
  cbn [mbind list_bind app].
  destruct (passes db _ _ _); reflexivity.
Qed.

Lemma passes_singleton db ps c env :
  passes db ps [c] env = Tri.holds (evalCond db ps env c).
Proof. unfold passes. cbn. apply andb_true_r. Qed.

Lemma passes_cons db ps c cs env :
  passes db ps (c :: cs) env = Tri.holds (evalCond db ps env c) && passes db ps cs env.
Proof. reflexivity. Qed.

Lemma binding_here alias r : binding alias [(alias, r)] = Some r.
Proof. cbn. now rewrite String.eqb_refl. Qed.

(** ** sourceFeedBuilder and tagFeedBuilder *)

Lemma sourceCond_holds db ps env alias sid post :
  binding alias env = Some (postRow post) ->
  ps !! "sourceId" = Some (PStr sid) ->
  Tri.holds (evalCond db ps env (CEqParam (col alias "sourceId") "sourceId"))
  = String.eqb (p_sourceId post) sid.
Proof.
  intros Hb Hp. cbn [evalCond]. rewrite Hp.
  rewrite (colValue_bound env (col alias "sourceId") _ Hb).
  change (field (cName (col alias "sourceId")) (postRow post)) with (VStr (p_sourceId post)).
  now rewrite eq3_str, holds_some.
Qed.

(** X5: the source feed returns only posts of the given source,
    whatever the builder already asks for; on a new builder over the
    post table it returns exactly the posts of that source, each as
    often as the table holds it. *)
Theorem sourceFeedBuilder_feed
    (ctx : Context) (sourceId : string) (builder : SelectQueryBuilder)
    (alias : string) (db : Database) :
  target builder = Some (Post, alias) ->
  Forall (fun j => jAlias j <> alias) (joins builder) ->
  (forall post, In post (execute db (sourceFeedBuilder ctx sourceId builder alias)) ->
                In post (posts db) /\ p_sourceId post = sourceId)
  /\ execute db (sourceFeedBuilder ctx sourceId (QB.createQueryBuilder Post alias) alias)
     ≡ₚ List.filter (fun p => String.eqb (p_sourceId p) sourceId) (posts db).
Proof.
  intros Ht Hjs.
  assert (Hp : forall b, parameters (sourceFeedBuilder ctx sourceId b alias) !! "sourceId"
                         = Some (PStr sourceId)).
  { intros b. cbn. apply lookup_union_Some_l, lookup_singleton_eq. }
  split.
  - intros post Hin.
    destruct (execute_member db (sourceFeedBuilder ctx sourceId builder alias) alias post
                Ht Hjs Hin) as [Hpost [env [Hb Hpass]]].
    split; [exact Hpost|].
    change (wheres (sourceFeedBuilder ctx sourceId builder alias))
      with (wheres builder ++ [CEqParam (col alias "sourceId") "sourceId"]) in Hpass.
    rewrite passes_app, passes_singleton in Hpass.
    apply andb_true_iff in Hpass as [_ Hpass].
    rewrite (sourceCond_holds db _ env alias sourceId post Hb (Hp builder)) in Hpass.
    now apply String.eqb_eq.
  - rewrite (execute_join_free db _ alias) by reflexivity.
    erewrite filter_ext; [reflexivity|].
    intros p. cbn [sourceFeedBuilder QB.andWhere QB.createQueryBuilder wheres app].
    rewrite passes_singleton.
    apply (sourceCond_holds db _ _ alias sourceId p (binding_here alias _)).
    apply (Hp (QB.createQueryBuilder Post alias)).
Qed.

Lemma tagFeedBuilder_wheres ctx tag b alias :
  wheres (tagFeedBuilder ctx tag b alias) = wheres b ++ [tagFragment alias "tags"].
Proof. reflexivity. Qed.

Lemma tagFeedBuilder_tags ctx tag b alias :
  parameters (tagFeedBuilder ctx tag b alias) !! "tags" = Some (PList [tag]).
Proof.
  unfold tagFeedBuilder, QB.andWhereFn, whereTags.
  cbn [QB.andWhere QB.adopt QB.setParameters QB.where_ QB.from QB.select QB.subQuery
       parameters].
  rewrite (left_id_L ∅ (∪)). apply sub_params_lookup.
Qed.

(** X6: the tag feed returns only posts that carry the tag as a
    keyword, whatever the builder already asks for; on a new builder
    over the post table it returns exactly those posts, each once per
    row of the post table even when several keyword rows match. The
    alias of the post table is not the alias [pk] of the sub-query. *)
Theorem tagFeedBuilder_feed
    (ctx : Context) (tag : string) (builder : SelectQueryBuilder)
    (alias : string) (db : Database) :
  target builder = Some (Post, alias) ->
  Forall (fun j => jAlias j <> alias) (joins builder) ->
  alias <> "pk" ->
  (forall post, In post (execute db (tagFeedBuilder ctx tag builder alias)) ->
                In post (posts db) /\ hasKeywordIn db post [tag])
  /\ execute db (tagFeedBuilder ctx tag (QB.createQueryBuilder Post alias) alias)
     ≡ₚ List.filter
          (fun p => existsb (fun r => String.eqb (pk_postId r) (p_id p)
                                      && String.eqb (pk_keyword r) tag) (postKeywords db))
          (posts db).
Proof.
  intros Ht Hjs Hne. split.
  - intros post Hin.
    destruct (execute_member db (tagFeedBuilder ctx tag builder alias) alias post
                Ht Hjs Hin) as [Hpost [env [Hb Hpass]]].
    split; [exact Hpost|].
    rewrite tagFeedBuilder_wheres, passes_app, passes_singleton in Hpass.
    apply andb_true_iff in Hpass as [_ Hpass].
    now apply (tagFragment_holds db _ env alias "tags" [tag] post Hne Hb
                 (tagFeedBuilder_tags ctx tag builder alias)).
  - rewrite (execute_join_free db _ alias) by reflexivity.
    erewrite filter_ext; [reflexivity|].
    intros p. rewrite tagFeedBuilder_wheres. cbn [QB.createQueryBuilder wheres app].
    rewrite passes_singleton.
    rewrite (tagFragment_eval db _ _ alias "tags" [tag]
               (tagFeedBuilder_tags ctx tag _ alias)), holds_some.
    apply existsb_pointwise. intros r. unfold keywordRowMatches, col.
    rewrite (colValue_post "pk" _ _ alias "id" Bare p) by (auto using binding_here; congruence).
    change (field "id" (postRow p)) with (VStr (p_id p)).
    rewrite eq3_str, holds_some. cbn [existsb]. rewrite orb_false_r.
    apply andb_comm.
Qed.

(** ** anonymousFeedBuilder and configuredFeedBuilder *)

Lemma anonymousFeedBuilder_lookups ctx f builder alias :
  let b := anonymousFeedBuilder ctx (Some f) builder alias in
  (Str.nonEmpty (includeSources f) = true ->
     parameters b !! "sources" = Some (PList (Str.arr (includeSources f))))
  /\ (Str.nonEmpty (includeSources f) = false -> Str.nonEmpty (excludeSources f) = true ->
      parameters b !! "sources" = Some (PList (Str.arr (excludeSources f))))
  /\ (Str.nonEmpty (includeTags f) = true ->
      parameters b !! "tags" = Some (PList (Str.arr (includeTags f))))
  /\ (Str.nonEmpty (blockedTags f) = true ->
      parameters b !! "blockedTags" = Some (PList (Str.arr (blockedTags f)))).
Proof.
  intros b. subst b.
  unfold anonymousFeedBuilder. cbn [mbind option_bind].
  destruct (Str.nonEmpty (includeSources f)), (Str.nonEmpty (excludeSources f)),
    (Str.nonEmpty (includeTags f)), (Str.nonEmpty (blockedTags f));
    unfold QB.andWhereFn, whereNotTags, whereTags;
    cbn [QB.andWhere QB.adopt QB.setParameters QB.where_ QB.from QB.select QB.subQuery
         parameters fst snd];
    repeat split; intros; try discriminate; lookup_params.
Qed.

Lemma anonymousFeedBuilder_shape ctx filters builder alias :
  target (anonymousFeedBuilder ctx filters builder alias) = target builder
  /\ joins (anonymousFeedBuilder ctx filters builder alias) = joins builder.
Proof.
  unfold anonymousFeedBuilder.
  destruct (Str.nonEmpty (filters ≫= includeSources)),
    (Str.nonEmpty (filters ≫= excludeSources)),
    (Str.nonEmpty (filters ≫= includeTags)), (Str.nonEmpty (filters ≫= blockedTags));
    split; reflexivity.
Qed.

Lemma sourceIn_holds db ps env alias l post :
  binding alias env = Some (postRow post) ->
  ps !! "sources" = Some (PList l) ->
  Tri.holds (evalCond db ps env (CInParam (colQ alias "sourceId") "sources"))
  = existsb (String.eqb (p_sourceId post)) l
  /\ Tri.holds (evalCond db ps env (CNotInParam (colQ alias "sourceId") "sources"))
     = negb (existsb (String.eqb (p_sourceId post)) l).
Proof.
  intros Hb Hp. cbn [evalCond]. rewrite Hp.
  rewrite (colValue_bound env (colQ alias "sourceId") _ Hb).
  change (field (cName (colQ alias "sourceId")) (postRow post)) with (VStr (p_sourceId post)).
  rewrite in3_str. split; [apply holds_some|].
  cbn [Tri.not3 fmap option_fmap option_map]. apply holds_some.
Qed.

(** The conditions added for a filter set pass for a row of a post
    exactly when the post meets the filters. *)
Lemma filterConds_meaning db ps env alias f post :
  alias <> "pk" ->
  binding alias env = Some (postRow post) ->
  (Str.nonEmpty (includeSources f) = true ->
     ps !! "sources" = Some (PList (Str.arr (includeSources f)))) ->
  (Str.nonEmpty (includeSources f) = false -> Str.nonEmpty (excludeSources f) = true ->
     ps !! "sources" = Some (PList (Str.arr (excludeSources f)))) ->
  (Str.nonEmpty (includeTags f) = true ->
     ps !! "tags" = Some (PList (Str.arr (includeTags f)))) ->
  (Str.nonEmpty (blockedTags f) = true ->
     ps !! "blockedTags" = Some (PList (Str.arr (blockedTags f)))) ->
  passes db ps (sourceConds f alias ++ tagConds f alias) env = true
  <-> meetsFilters db f post.
Proof.
  intros Hne Hb Hs1 Hs2 Ht Hbl. unfold meetsFilters.
  rewrite passes_app, andb_true_iff.
  assert (Hsrc : passes db ps (sourceConds f alias) env = true
                 <-> (Str.nonEmpty (includeSources f) = true ->
                        In (p_sourceId post) (Str.arr (includeSources f)))
                     /\ (Str.nonEmpty (includeSources f) = false ->
                         Str.nonEmpty (excludeSources f) = true ->
                         ~ In (p_sourceId post) (Str.arr (excludeSources f)))).
  { unfold sourceConds.
    destruct (Str.nonEmpty (includeSources f)) eqn:Ei;
      [|destruct (Str.nonEmpty (excludeSources f)) eqn:Ee].
    - rewrite passes_singleton.
      rewrite (proj1 (sourceIn_holds db ps env alias _ post Hb (Hs1 eq_refl))).
      rewrite existsb_eqb_In. intuition congruence.
    - rewrite passes_singleton.
      rewrite (proj2 (sourceIn_holds db ps env alias _ post Hb (Hs2 eq_refl eq_refl))).
      rewrite negb_true_iff. split.
      + intros H. split; [discriminate|]. intros _ _ Hin.
        apply existsb_eqb_In in Hin. congruence.
      + intros [_ H].
        destruct (existsb (String.eqb (p_sourceId post)) (Str.arr (excludeSources f))) eqn:E;
          [|reflexivity].
        exfalso. apply (H eq_refl eq_refl). now apply existsb_eqb_In.
    - cbn. intuition congruence. }
  assert (Htag : passes db ps (tagConds f alias) env = true
                 <-> (Str.nonEmpty (includeTags f) = true ->
                        hasKeywordIn db post (Str.arr (includeTags f)))
                     /\ (Str.nonEmpty (blockedTags f) = true ->
                         ~ hasKeywordIn db post (Str.arr (blockedTags f)))).
  { unfold tagConds. rewrite passes_app, andb_true_iff.
    assert (Hi : passes db ps (if Str.nonEmpty (includeTags f)
                               then [tagFragment alias "tags"] else []) env = true
                 <-> (Str.nonEmpty (includeTags f) = true ->
                        hasKeywordIn db post (Str.arr (includeTags f)))).
    { destruct (Str.nonEmpty (includeTags f)) eqn:Et.
      - rewrite passes_singleton.
        rewrite (tagFragment_holds db ps env alias "tags" _ post Hne Hb (Ht eq_refl)).
        intuition.
      - cbn. intuition congruence. }
    assert (Hn : passes db ps (if Str.nonEmpty (blockedTags f)
                               then [CNot (tagFragment alias "blockedTags")] else []) env = true
                 <-> (Str.nonEmpty (blockedTags f) = true ->
                        ~ hasKeywordIn db post (Str.arr (blockedTags f)))).
    { destruct (Str.nonEmpty (blockedTags f)) eqn:Et.
      - rewrite passes_singleton. cbn [evalCond].
        pose proof (tagFragment_holds db ps env alias "blockedTags" _ post Hne Hb
                      (Hbl eq_refl)) as Hk.
        rewrite (tagFragment_eval db ps env alias "blockedTags" _ (Hbl eq_refl)) in *.
        cbn [Tri.not3 fmap option_fmap option_map].
        rewrite holds_some in *. rewrite negb_true_iff.
        destruct (existsb _ _); intuition congruence.
      - cbn. intuition congruence. }
    rewrite Hi, Hn. reflexivity. }
  rewrite Hsrc, Htag. intuition.
Qed.

Lemma anonymousFeedBuilder_fresh_member ctx f alias db post :
  alias <> "pk" ->
  In post (execute db (anonymousFeedBuilder ctx (Some f)
                         (QB.createQueryBuilder Post alias) alias))
  <-> In post (posts db) /\ meetsFilters db f post.
Proof.
  intros Hne.
  destruct (anonymousFeedBuilder_shape ctx (Some f) (QB.createQueryBuilder Post alias) alias)
    as [Ht' Hj'].
  rewrite (execute_join_free db _ alias Ht' Hj'), filter_In.
  rewrite anonymousFeedBuilder_wheres. cbn [QB.createQueryBuilder wheres app].
  destruct (anonymousFeedBuilder_lookups ctx f (QB.createQueryBuilder Post alias) alias)
    as [H1 [H2 [H3 H4]]].
  now rewrite (filterConds_meaning db _ _ alias f post Hne (binding_here alias _) H1 H2 H3 H4).
Qed.

(** X7: the anonymous feed returns only posts that meet the filters:
    a source among [includeSources] when that list is not empty,
    otherwise a source outside [excludeSources] when that one is not
    empty; a keyword among [includeTags] when not empty; and no keyword
    among [blockedTags] when not empty. On a new builder over the post
    table it returns exactly the posts that meet them, so all posts
    when every list is empty; without filters the builder is returned
    as it came. The alias of the post table is not [pk]. *)
Theorem anonymousFeedBuilder_feed
    (ctx : Context) (f : AnonymousFeedFilters) (builder : SelectQueryBuilder)
    (alias : string) (db : Database) :
  target builder = Some (Post, alias) ->
  Forall (fun j => jAlias j <> alias) (joins builder) ->
  alias <> "pk" ->
  (forall post, In post (execute db (anonymousFeedBuilder ctx (Some f) builder alias)) ->
                In post (posts db) /\ meetsFilters db f post)
  /\ (forall post,
        In post (execute db (anonymousFeedBuilder ctx (Some f)
                               (QB.createQueryBuilder Post alias) alias))
        <-> In post (posts db) /\ meetsFilters db f post)
  /\ anonymousFeedBuilder ctx None builder alias = builder.
Proof.
  intros Ht Hjs Hne. split; [|split; [|reflexivity]].
  - intros post Hin.
    destruct (anonymousFeedBuilder_shape ctx (Some f) builder alias) as [Ht' Hj'].
    destruct (execute_member db (anonymousFeedBuilder ctx (Some f) builder alias) alias post)
      as [Hpost [env [Hb Hpass]]]; [congruence | now rewrite Hj' | exact Hin |].
    split; [exact Hpost|].
    rewrite anonymousFeedBuilder_wheres, passes_app in Hpass.
    apply andb_true_iff in Hpass as [_ Hpass].
    destruct (anonymousFeedBuilder_lookups ctx f builder alias) as [H1 [H2 [H3 H4]]].
    now apply (filterConds_meaning db _ env alias f post Hne Hb H1 H2 H3 H4).
  - intros post. now apply anonymousFeedBuilder_fresh_member.
Qed.

Lemma configuredFeedBuilder_wheres ctx feedId builder alias filters :
  wheres (configuredFeedBuilder ctx feedId true builder alias filters)
  = wheres (anonymousFeedBuilder ctx filters builder alias) ++ [unreadFragment alias].
Proof. reflexivity. Qed.

Lemma configuredFeedBuilder_user ctx feedId builder alias filters :
  parameters (configuredFeedBuilder ctx feedId true builder alias filters) !! "userId"
  = Some (optParam (userId ctx)).
Proof.
  unfold configuredFeedBuilder, QB.andWhereFn, whereUnread, selectRead.
  cbn [QB.andWhere QB.adopt QB.setParameters QB.where_ QB.from QB.select QB.subQuery
       parameters].
  rewrite (left_id_L ∅ (∪)). apply sub_params_lookup.
Qed.

Lemma configuredFeedBuilder_other ctx feedId builder alias filters (k : string) :
  k <> "userId" ->
  parameters (configuredFeedBuilder ctx feedId true builder alias filters) !! k
  = parameters (anonymousFeedBuilder ctx filters builder alias) !! k.
Proof.
  intros Hk.
  unfold configuredFeedBuilder, QB.andWhereFn, whereUnread, selectRead.
  cbn [QB.andWhere QB.adopt QB.setParameters QB.where_ QB.from QB.select QB.subQuery
       parameters].
  rewrite !(left_id_L ∅ (∪)), (right_id_L ∅ (∪)).
  rewrite lookup_union_r; [reflexivity|].
  apply lookup_singleton_ne. congruence.
Qed.

(** X8: with [unreadOnly] the configured feed of a logged-in viewer
    returns only posts the viewer has not viewed, and they still meet
    the filters; without [unreadOnly] it is the anonymous feed of the
    same filters. The feed id takes no part: the filters are the ones
    passed in. The alias of the post table is neither [pk] nor [view]. *)
Theorem configuredFeedBuilder_feed
    (ctx : Context) (feedId user : string) (f : AnonymousFeedFilters)
    (builder : SelectQueryBuilder) (alias : string) (db : Database) :
  userId ctx = Some user ->
  target builder = Some (Post, alias) ->
  Forall (fun j => jAlias j <> alias) (joins builder) ->
  alias <> "pk" -> alias <> "view" ->
  (forall post,
     In post (execute db (configuredFeedBuilder ctx feedId true builder alias (Some f))) ->
     In post (posts db) /\ ~ viewed db user post /\ meetsFilters db f post)
  /\ (forall filters,
        configuredFeedBuilder ctx feedId false builder alias filters
        = anonymousFeedBuilder ctx filters builder alias)
  /\ (forall feedId' unreadOnly filters,
        configuredFeedBuilder ctx feedId' unreadOnly builder alias filters
        = configuredFeedBuilder ctx feedId unreadOnly builder alias filters).
Proof.
  intros Hu Ht Hjs Hpk Hview. split; [|split; reflexivity].
  intros post Hin.
  destruct (anonymousFeedBuilder_shape ctx (Some f) builder alias) as [Ht' Hj'].
  destruct (execute_member db (configuredFeedBuilder ctx feedId true builder alias (Some f))
              alias post) as [Hpost [env [Hb Hpass]]].
  { change (target (configuredFeedBuilder ctx feedId true builder alias (Some f)))
      with (target (anonymousFeedBuilder ctx (Some f) builder alias)). congruence. }
  { change (joins (configuredFeedBuilder ctx feedId true builder alias (Some f)))
      with (joins (anonymousFeedBuilder ctx (Some f) builder alias)). now rewrite Hj'. }
  { exact Hin. }
  split; [exact Hpost|].
  rewrite configuredFeedBuilder_wheres, passes_app, passes_singleton in Hpass.
  apply andb_true_iff in Hpass as [Hanon Hunread].
  pose (cfgd := configuredFeedBuilder ctx feedId true builder alias (Some f)).
  split.
  - apply (unreadFragment_holds db (parameters cfgd) env alias user post Hview Hb);
      [|exact Hunread].
    unfold cfgd. rewrite configuredFeedBuilder_user, Hu. reflexivity.
  - rewrite anonymousFeedBuilder_wheres, passes_app in Hanon.
    apply andb_true_iff in Hanon as [_ Hanon].
    destruct (anonymousFeedBuilder_lookups ctx f builder alias) as [H1 [H2 [H3 H4]]].
    apply (filterConds_meaning db (parameters cfgd) env alias f post Hpk Hb);
      [| | | | exact Hanon];
      intros; unfold cfgd; rewrite configuredFeedBuilder_other by discriminate; auto.
Qed.

(** ** applyFeedWhere keeps what it does not exclude *)

Lemma existsb_and_const {A} (g : A -> bool) (c : bool) (l : list A) :
  existsb (fun a => g a && c) l = existsb g l && c.
Proof.
  induction l as [|a l IH]; [reflexivity|]. cbn. rewrite IH.
  destruct (g a), c, (existsb g l); reflexivity.
Qed.

Lemma bind_filter {A} (g : A -> bool) (l : list A) :
  (l ≫= fun a => if g a then [a] else []) = List.filter g l.
Proof.
  induction l as [|a l IH]; [reflexivity|].
  change ((a :: l) ≫= ?f) with (f a ++ (l ≫= f)).
  rewrite IH. cbn [List.filter]. now destruct (g a).
Qed.

Lemma sourceQuery_bool db ps env alias p :
  alias <> "source" ->
  binding alias env = Some (postRow p) ->
  Tri.holds (evalCond db ps env (CExists (sourceQuery alias)))
  = existsb (fun s => s_active s && String.eqb (s_id s) (p_sourceId p)) (sources db)
    && negb (p_deleted p).
Proof.
  intros Hne Hb. unfold sourceQuery. cbn [evalCond evalQuery table].
  rewrite exists_rows, holds_some, <- existsb_and_const.
  apply existsb_pointwise. intros s. unfold colQQ, col.
  change (colValue (("source", sourceRow s) :: env)
            {| cAlias := "source"; cName := "active"; cQuote := Bare |})
    with (VBool (s_active s)).
  change (colValue (("source", sourceRow s) :: env)
            {| cAlias := "source"; cName := "id"; cQuote := Bare |})
    with (VStr (s_id s)).
  rewrite !(colValue_post "source" _ env alias _ _ p) by (auto; congruence).
  change (field "sourceId" (postRow p)) with (VStr (p_sourceId p)).
  change (field "deleted" (postRow p)) with (VBool (p_deleted p)).
  rewrite !holds_and3. cbn [eq3]. rewrite !holds_some.
  now destruct (s_active s), (p_deleted p).
Qed.

Lemma bannedCond_bool db ps env alias p :
  binding alias env = Some (postRow p) ->
  Tri.holds (evalCond db ps env (CEqBool (colA alias "banned") false true))
  = negb (p_banned p).
Proof.
  intros Hb. cbn [evalCond].
  rewrite (colValue_bound env (colA alias "banned") _ Hb).
  change (field (cName (colA alias "banned")) (postRow p)) with (VBool (p_banned p)).
  cbn [eq3]. rewrite holds_some. now destruct (p_banned p).
Qed.

Lemma hiddenJoin_rows db ps alias p u :
  alias <> "hidden" ->
  ps !! "userId" = Some (PStr u) ->
  List.filter
    (fun r => Tri.holds (evalCond db ps (("hidden", r) :: [(alias, postRow p)])
                                  (jOn (hiddenJoin alias))))
    (table db HiddenPost)
  = hiddenPostRow <$>
    List.filter (fun h => String.eqb (h_postId h) (p_id p) && String.eqb (h_userId h) u)
                (hiddenPosts db).
Proof.
  intros Hne Hu. cbn [table hiddenJoin jOn].
  induction (hiddenPosts db) as [|h l IH]; [reflexivity|].
  rewrite fmap_cons. cbn [List.filter]. rewrite IH.
  cbn [evalCond]. rewrite Hu.
  change (colValue (("hidden", hiddenPostRow h) :: [(alias, postRow p)]) (col "hidden" "postId"))
    with (VStr (h_postId h)).
  change (colValue (("hidden", hiddenPostRow h) :: [(alias, postRow p)]) (col "hidden" "userId"))
    with (VStr (h_userId h)).
  unfold colA.
  rewrite (colValue_post "hidden" _ _ alias "id" QuotedAlias p)
    by (auto using binding_here; congruence).
  change (field "id" (postRow p)) with (VStr (p_id p)).
  rewrite holds_and3, !eq3_str, !holds_some.
  destruct (String.eqb (h_postId h) (p_id p) && String.eqb (h_userId h) u); reflexivity.
Qed.

Lemma bind_pointwise {A B} (f g : A -> list B) (l : list A) :
  (forall a, f a = g a) -> l ≫= f = l ≫= g.
Proof.
  intros E. induction l as [|a l IH]; [reflexivity|].
  change ((a :: l) ≫= ?h) with (h a ++ (l ≫= h)). now rewrite E, IH.
Qed.

Lemma bind_nothing {A B} (l : list A) : (l ≫= fun _ => @nil B) = [].
Proof. induction l as [|a l IH]; [reflexivity|]. exact IH. Qed.

(** X9: on a new builder over the post table [applyFeedWhere] returns
    exactly the posts whose source is active, that are not deleted, not
    banned (when asked) and not hidden by the logged-in viewer (when
    asked): nothing else is left out, and the left join on the hidden
    posts repeats no post. The alias is neither [source] nor [hidden]. *)
Theorem applyFeedWhere_exact
    (ctx : Context) (alias : string) (removeHiddenPosts removeBannedPosts : bool)
    (db : Database) :
  alias <> "source" -> alias <> "hidden" ->
  execute db (applyFeedWhere ctx (QB.createQueryBuilder Post alias) alias
                removeHiddenPosts removeBannedPosts)
  ≡ₚ List.filter (allowedPost db ctx removeHiddenPosts removeBannedPosts) (posts db).
Proof.
  intros Hsrc Hhid.
  pose proof (applyFeedWhere_userId ctx (QB.createQueryBuilder Post alias) alias
                removeHiddenPosts removeBannedPosts) as Hu.
  unfold execute.
  rewrite applyFeedWhere_target, applyFeedWhere_joins, applyFeedWhere_wheres.
  cbn [QB.createQueryBuilder target joins wheres app].
  set (ps := parameters _) in *.
  rewrite <- bind_filter.
  match goal with |- ?l ≡ₚ ?r => assert (E : l = r); [|now rewrite E] end.
  apply bind_pointwise. intros p.
  assert (Hb0 : binding alias [(alias, postRow p)] = Some (postRow p))
    by apply binding_here.
  unfold allowedPost, joined.
  destruct (loggedIn ctx && removeHiddenPosts) eqn:Eh; cbn [foldl].
  - (* the left join on the hidden posts *)
    apply andb_true_iff in Eh as [Hl _].
    unfold loggedIn in Hl. destruct (userId ctx) as [u|] eqn:Eu; [|discriminate].
    assert (Hps : ps !! "userId" = Some (PStr u)).
    { rewrite Hu. unfold userParam. now rewrite Eu. }
    change ([[(alias, postRow p)]] ≫= ?f) with (f [(alias, postRow p)] ++ []).
    rewrite app_nil_r. unfold joinRows at 1.
    cbn [jAlias jEntity jKind hiddenJoin].
    change (jOn {| jKind := LeftJoin; jEntity := HiddenPost; jAlias := "hidden";
                   jOn := CAnd (CEqCol (col "hidden" "postId") (colA alias "id"))
                               (CEqParam (col "hidden" "userId") "userId") |})
      with (jOn (hiddenJoin alias)).
    rewrite (hiddenJoin_rows db ps alias p u Hhid Hps).
    rewrite <- (nonempty_filter
                  (fun h => String.eqb (h_postId h) (p_id p) && String.eqb (h_userId h) u)
                  hiddenPostRow (hiddenPosts db)).
    destruct (List.filter _ (hiddenPosts db)) as [|h hs] eqn:Ef.
    + cbn [fmap list_fmap negb].
      change ([("hidden", nullRow) :: [(alias, postRow p)]] ≫= ?f)
        with (f (("hidden", nullRow) :: [(alias, postRow p)]) ++ []).
      rewrite app_nil_r.
      assert (Hb : binding alias (("hidden", nullRow) :: [(alias, postRow p)])
                   = Some (postRow p)).
      { rewrite binding_skip by congruence. exact Hb0. }
      cbn [app]. rewrite !passes_cons.
      rewrite (sourceQuery_bool db ps _ alias p Hsrc Hb).
      replace (Tri.holds (evalCond db ps (("hidden", nullRow) :: [(alias, postRow p)])
                                   (CIsNull (col "hidden" "postId")))) with true
        by reflexivity.
      rewrite !andb_true_r, andb_true_l.
      destruct removeBannedPosts.
      * now rewrite passes_singleton, (bannedCond_bool db ps _ alias p Hb).
      * reflexivity.
    + rewrite fmap_cons. cbn [negb]. rewrite andb_false_r, andb_false_l.
      rewrite <- fmap_cons.
      set (rows := h :: hs). clearbody rows. clear Ef.
      induction rows as [|h' rows IH]; [reflexivity|].
      rewrite !fmap_cons.
      change ((?e :: ?l) ≫= ?f) with (f e ++ (l ≫= f)).
      cbn [app] in IH |- *. rewrite !passes_cons.
      replace (Tri.holds (evalCond db ps (("hidden", hiddenPostRow h') :: [(alias, postRow p)])
                                   (CIsNull (col "hidden" "postId")))) with false
        by reflexivity.
      rewrite andb_false_l, andb_false_r. cbn [app].
      exact IH.
  - change ([[(alias, postRow p)]] ≫= ?f) with (f [(alias, postRow p)] ++ []).
    rewrite app_nil_r. cbn [app]. rewrite passes_cons.
    rewrite (sourceQuery_bool db ps _ alias p Hsrc Hb0).
    rewrite andb_true_r.
    destruct removeBannedPosts.
    + now rewrite passes_singleton, (bannedCond_bool db ps _ alias p Hb0).
    + reflexivity.
Qed.

(** ** fixedIdsFeedBuilder over quote-free ids *)

(** X10: for ids that hold no single quote, the fixed-ids feed on a
    new builder over the post table returns exactly the posts whose id
    is among the ids (among the sentinel alone when there is no id),
    each as often as the table holds it; the order, which the query
    takes from the position of the id, is left out. *)
Theorem fixedIdsFeedBuilder_exact
    (ctx : Context) (ids : list string) (alias : string) (db : Database) :
  Forall (fun id => quoteFree id = true) ids ->
  execute db (fixedIdsFeedBuilder ctx ids (QB.createQueryBuilder Post alias) alias)
  ≡ₚ List.filter
       (fun p => existsb (String.eqb (p_id p))
                   (match ids with [] => ["nosuchid"] | _ => ids end))
       (posts db).
Proof.
  intros Hq.
  rewrite (execute_join_free db _ alias) by reflexivity.
  erewrite filter_ext; [reflexivity|].
  intros p. rewrite fixedIds_wheres. cbn [QB.createQueryBuilder wheres app].
  rewrite passes_singleton. cbn [evalCond].
  rewrite (literals_idsStr ids Hq).
  rewrite (colValue_bound _ (col alias "id") _ (binding_here alias (postRow p))).
  change (field (cName (col alias "id")) (postRow p)) with (VStr (p_id p)).
  now rewrite in3_str, holds_some.
Qed.

(** ** A feed and its filters *)

Lemma feedToFilters_lists (db : Database) (feedId : string) :
  feedToFilters db feedId
  = {| includeSources := None;
       excludeSources := Some (sourcesOfFeed db feedId);
       includeTags := Some (followedTagsOfFeed db feedId);
       blockedTags := Some (blockedTagsOfFeed db feedId) |}.
Proof.
  unfold feedToFilters, followedTagsOfFeed, blockedTagsOfFeed.
  now rewrite feedToFilters_fold.
Qed.

Lemma nonEmpty_some {A} (l : list A) : Str.nonEmpty (Some l) = true <-> l <> [].
Proof. destruct l; cbn; split; congruence. Qed.

Lemma hasKeywordIn_nil db post : ~ hasKeywordIn db post [].
Proof. intros [r [_ [_ []]]]. Qed.

Lemma meetsFilters_of_feed db feedId post :
  meetsFilters db (feedToFilters db feedId) post
  <-> ~ In (p_sourceId post) (sourcesOfFeed db feedId)
      /\ (followedTagsOfFeed db feedId <> [] ->
          hasKeywordIn db post (followedTagsOfFeed db feedId))
      /\ ~ hasKeywordIn db post (blockedTagsOfFeed db feedId).
Proof.
  rewrite feedToFilters_lists. unfold meetsFilters.
  cbn [includeSources excludeSources includeTags blockedTags Str.arr default].
  rewrite !nonEmpty_some. cbn [Str.nonEmpty].
  split.
  - intros [_ [Hs [Ht Hb]]]. split; [|split].
    + destruct (sourcesOfFeed db feedId) as [|x l] eqn:E; [intros []|].
      apply Hs; [reflexivity | discriminate].
    + exact Ht.
    + destruct (blockedTagsOfFeed db feedId) as [|x l] eqn:E;
        [apply hasKeywordIn_nil | apply Hb; discriminate].
  - intros [Hs [Ht Hb]]. repeat split; auto. discriminate.
Qed.

(** X11: the anonymous feed built from the filters that
    [feedToFilters] reads for a feed returns, on a new builder over the
    post table, exactly the posts whose source is not a source row of
    the feed, that carry a followed tag of the feed when the feed
    follows any, and that carry no blocked tag of the feed. The alias
    of the post table is not [pk]. *)
Theorem feed_filters_end_to_end
    (ctx : Context) (feedId : string) (alias : string) (db : Database) (post : PostRow) :
  alias <> "pk" ->
  In post (execute db (anonymousFeedBuilder ctx (Some (feedToFilters db feedId))
                         (QB.createQueryBuilder Post alias) alias))
  <-> In post (posts db)
      /\ ~ In (p_sourceId post) (sourcesOfFeed db feedId)
      /\ (followedTagsOfFeed db feedId <> [] ->
          hasKeywordIn db post (followedTagsOfFeed db feedId))
      /\ ~ hasKeywordIn db post (blockedTagsOfFeed db feedId).
Proof.
  intros Hne.
  rewrite (anonymousFeedBuilder_fresh_member ctx _ alias db post Hne).
  now rewrite meetsFilters_of_feed.
Qed.

(** X12: [whereTagsInFeed] reads every tag row of the feed, the
    blocked ones too: a post that carries a blocked tag of the feed
    passes [whereTagsInFeed], while it does not meet the filters that
    [feedToFilters] reads for the same feed. The alias of the post
    table is not [pk]. *)
Theorem whereTagsInFeed_counts_blocked_tags
    (db : Database) (feedId : string) (builder : SelectQueryBuilder)
    (alias : string) (post : PostRow) (tag : string) :
  alias <> "pk" ->
  In tag (blockedTagsOfFeed db feedId) ->
  hasKeywordIn db post [tag] ->
  holdsFor db (whereTagsInFeed feedId builder alias).2 alias post
           (whereTagsInFeed feedId builder alias).1 = true
  /\ ~ meetsFilters db (feedToFilters db feedId) post.
Proof.
  intros Hne Htag [r [Hr [Hp [Hk|[]]]]]. subst tag.
  assert (Hall : In (pk_keyword r) (tagsOfFeed db feedId)).
  { unfold blockedTagsOfFeed in Htag. unfold tagsOfFeed.
    apply list_elem_of_In, list_elem_of_fmap in Htag as [t [-> Ht]].
    apply list_elem_of_In, filter_In in Ht as [Ht _].
    apply list_elem_of_In, list_elem_of_fmap_2, list_elem_of_In, Ht. }
  split.
  - unfold holdsFor. rewrite whereTagsInFeed_eval, holds_some.
    apply orb_true_iff. right. apply existsb_exists. exists r. split; [exact Hr|].
    apply (keywordRowMatches_bound _ alias _ post r Hne (binding_here alias _)).
    split; [exact Hp | exact Hall].
  - rewrite meetsFilters_of_feed. intros [_ [_ Hb]]. apply Hb.
    exists r. repeat split; [exact Hr | exact Hp | exact Htag].
Qed.

(** ** Instances of the further properties *)

(** Post q2 and the keyword golang. *)
Lemma whereKeyword_meaning_witness :
  "p" <> "pk"
  /\ (holdsFor Sample.db (whereKeyword "golang" Sample.feed "p").2 "p" Sample.q2
               (whereKeyword "golang" Sample.feed "p").1 = true
      <-> exists r, In r (postKeywords Sample.db)
                    /\ pk_postId r = p_id Sample.q2 /\ pk_keyword r = "golang").
Proof.
  split; [discriminate|].
  apply (whereKeyword_meaning Sample.db "golang" Sample.feed "p" Sample.q2).
  discriminate.
Defined.

(** Viewer u1 has viewed post q2. *)
Lemma whereUnread_meaning_witness :
  "p" <> "view"
  /\ (holdsFor Sample.db (whereUnread (Some "u1") Sample.feed "p").2 "p" Sample.q2
               (whereUnread (Some "u1") Sample.feed "p").1 = true
      <-> ~ viewed Sample.db "u1" Sample.q2).
Proof.
  split; [discriminate|].
  apply (whereUnread_meaning Sample.db "u1" Sample.feed "p" Sample.q2).
  discriminate.
Defined.

(** The feed of source a holds post q1 alone. *)
Lemma sourceFeedBuilder_feed_witness :
  target Sample.feed = Some (Post, "p")
  /\ execute Sample.db (sourceFeedBuilder Sample.viewer "a" Sample.feed "p") = [Sample.q1]
  /\ execute Sample.db (sourceFeedBuilder Sample.viewer "a" (QB.createQueryBuilder Post "p") "p")
     ≡ₚ List.filter (fun p => String.eqb (p_sourceId p) "a") (posts Sample.db).
Proof.
  split; [reflexivity|]. split; [vm_compute; reflexivity|].
  apply (sourceFeedBuilder_feed Sample.viewer "a" Sample.feed "p" Sample.db).
  - reflexivity.
  - constructor.
Defined.

(** The feed of tag javascript holds posts q1 and q3. *)
Lemma tagFeedBuilder_feed_witness :
  "p" <> "pk"
  /\ execute Sample.db (tagFeedBuilder Sample.viewer "javascript" Sample.feed "p")
     = [Sample.q1; Sample.q3]
  /\ forall post,
       In post (execute Sample.db (tagFeedBuilder Sample.viewer "javascript" Sample.feed "p")) ->
       In post (posts Sample.db) /\ hasKeywordIn Sample.db post ["javascript"].
Proof.
  split; [discriminate|]. split; [vm_compute; reflexivity|].
  apply (tagFeedBuilder_feed Sample.viewer "javascript" Sample.feed "p" Sample.db).
  - reflexivity.
  - constructor.
  - discriminate.
Defined.

(** Only post q1 meets the sample filters. *)
Lemma anonymousFeedBuilder_feed_witness :
  "p" <> "pk"
  /\ execute Sample.db (anonymousFeedBuilder Sample.viewer (Some Sample.filters) Sample.feed "p")
     = [Sample.q1]
  /\ forall post,
       In post (execute Sample.db
                  (anonymousFeedBuilder Sample.viewer (Some Sample.filters)
                     (QB.createQueryBuilder Post "p") "p"))
       <-> In post (posts Sample.db) /\ meetsFilters Sample.db Sample.filters post.
Proof.
  split; [discriminate|]. split; [vm_compute; reflexivity|].
  apply (anonymousFeedBuilder_feed Sample.viewer Sample.filters Sample.feed "p" Sample.db).
  - reflexivity.
  - constructor.
  - discriminate.
Defined.

(** The unread configured feed of viewer u1 holds post q1. *)
Lemma configuredFeedBuilder_feed_witness :
  userId Sample.viewer = Some "u1"
  /\ In Sample.q1 (execute Sample.db
                     (configuredFeedBuilder Sample.viewer "f1" true Sample.feed "p"
                        (Some Sample.filters)))
  /\ ~ viewed Sample.db "u1" Sample.q1
  /\ meetsFilters Sample.db Sample.filters Sample.q1.
Proof.
  assert (Hin : In Sample.q1 (execute Sample.db
                     (configuredFeedBuilder Sample.viewer "f1" true Sample.feed "p"
                        (Some Sample.filters)))).
  { vm_compute. left. reflexivity. }
  split; [reflexivity|]. split; [exact Hin|].
  destruct (configuredFeedBuilder_feed Sample.viewer "f1" "u1" Sample.filters Sample.feed "p"
              Sample.db) as [Hfeed _].
  - reflexivity.
  - reflexivity.
  - constructor.
  - discriminate.
  - discriminate.
  - destruct (Hfeed Sample.q1 Hin) as [_ [Hv Hm]]. split; [exact Hv | exact Hm].
Defined.

(** Of the five posts of the blog only p1 is allowed for viewer u1. *)
Lemma applyFeedWhere_exact_witness :
  "p" <> "source" /\ "p" <> "hidden"
  /\ List.filter (allowedPost Fixture.blogDb Fixture.viewer true true) (posts Fixture.blogDb)
     = [Fixture.p1]
  /\ execute Fixture.blogDb
       (applyFeedWhere Fixture.viewer (QB.createQueryBuilder Post "p") "p" true true)
     ≡ₚ List.filter (allowedPost Fixture.blogDb Fixture.viewer true true)
          (posts Fixture.blogDb).
Proof.
  split; [discriminate|]. split; [discriminate|]. split; [vm_compute; reflexivity|].
  apply (applyFeedWhere_exact Fixture.viewer "p" true true Fixture.blogDb); discriminate.
Defined.

(** The ids q3 and q1. *)
Lemma fixedIdsFeedBuilder_exact_witness :
  Forall (fun id => quoteFree id = true) ["q3"; "q1"]
  /\ execute Sample.db
       (fixedIdsFeedBuilder Sample.viewer ["q3"; "q1"] (QB.createQueryBuilder Post "p") "p")
     ≡ₚ List.filter (fun p => existsb (String.eqb (p_id p)) ["q3"; "q1"]) (posts Sample.db).
Proof.
  assert (Hq : Forall (fun id => quoteFree id = true) ["q3"; "q1"]).
  { repeat constructor. }
  split; [exact Hq|].
  apply (fixedIdsFeedBuilder_exact Sample.viewer ["q3"; "q1"] "p" Sample.db Hq).
Defined.

(** Feed f1 follows javascript, blocks python and has source b. *)
Lemma feed_filters_end_to_end_witness :
  "p" <> "pk"
  /\ execute Sample.db
       (anonymousFeedBuilder Sample.viewer (Some (feedToFilters Sample.db "f1"))
          (QB.createQueryBuilder Post "p") "p") = [Sample.q1]
  /\ (In Sample.q1
        (execute Sample.db
           (anonymousFeedBuilder Sample.viewer (Some (feedToFilters Sample.db "f1"))
              (QB.createQueryBuilder Post "p") "p"))
      <-> In Sample.q1 (posts Sample.db)
          /\ ~ In (p_sourceId Sample.q1) (sourcesOfFeed Sample.db "f1")
          /\ (followedTagsOfFeed Sample.db "f1" <> [] ->
              hasKeywordIn Sample.db Sample.q1 (followedTagsOfFeed Sample.db "f1"))
          /\ ~ hasKeywordIn Sample.db Sample.q1 (blockedTagsOfFeed Sample.db "f1")).
Proof.
  split; [discriminate|]. split; [vm_compute; reflexivity|].
  apply (feed_filters_end_to_end Sample.viewer "f1" "p" Sample.db Sample.q1).
  discriminate.
Defined.

(** Post q3 carries python, which feed f1 blocks. *)
Lemma whereTagsInFeed_counts_blocked_tags_witness :
  In "python" (blockedTagsOfFeed Sample.db "f1")
  /\ hasKeywordIn Sample.db Sample.q3 ["python"]
  /\ holdsFor Sample.db (whereTagsInFeed "f1" Sample.feed "p").2 "p" Sample.q3
              (whereTagsInFeed "f1" Sample.feed "p").1 = true
  /\ ~ meetsFilters Sample.db (feedToFilters Sample.db "f1") Sample.q3.
Proof.
  assert (Ht : In "python" (blockedTagsOfFeed Sample.db "f1")).
  { vm_compute. left. reflexivity. }
  assert (Hk : hasKeywordIn Sample.db Sample.q3 ["python"]).
  { exists {| pk_postId := "q3"; pk_keyword := "python" |}.
    split; [|split; [reflexivity | left; reflexivity]].
    cbn. right. right. right. left. reflexivity. }
  split; [exact Ht|]. split; [exact Hk|].
  apply (whereTagsInFeed_counts_blocked_tags Sample.db "f1" Sample.feed "p" Sample.q3 "python").
  - discriminate.
  - exact Ht.
  - exact Hk.
Defined.
